(** * Attendance tracker (App component): store, activity log, statistics

    A shallow embedding of the state model of [App] in [src/src/types.ts]
    (the part after the type declarations): the roster [FRIENDS], the
    [history] and [logs] state cells with their [localStorage] initialisers,
    the handlers [toggleAttendance] and [resetAttendance], and the derived
    values [currentAttendance], [weeklyStats] and [friendStats].

    Conventions of the embedding.
    - A JS object used as a dictionary ([DailyData]) is a [gmap string _];
      the keys are values of the date input, which never collide with the
      property names that [Object.prototype] defines.
    - An array is a [list]; [null] in [string | null] is [None].
    - A React state updater is run once per dispatched action, and the
      updaters queued with [setLogs] are applied in the order they were
      queued.
    - The environment (wall clock, [Math.random], [window.confirm],
      [localStorage]) is passed in explicitly. *)

From Stdlib Require Import ZArith List Ascii String Lia.
From stdpp Require Import gmap strings list fin_maps sorting pretty.

Local Open Scope Z_scope.

(** ** Abrupt completions

    A JS evaluation either returns a value or throws. *)

Inductive JsError := SyntaxError | RangeError.

Inductive Completion (A : Type) :=
| Normal (a : A)
| Throw (e : JsError).
Arguments Normal {A} a.
Arguments Throw {A} e.

#[global] Instance Completion_ret : MRet Completion := fun A x => Normal x.
#[global] Instance Completion_bind : MBind Completion :=
  fun A B f m => match m with Normal a => f a | Throw e => Throw e end.

(** ** Dates

    A [Date] is kept in local time: the number of the local calendar day
    (days since 1970-01-01) and the milliseconds elapsed in that day. *)

Record Date := mkDate { dayNumber : Z; msOfDay : Z }.

(** [String.prototype.padStart(targetLength, '0')] *)
Definition padStart0 (targetLength : nat) (s : string) : string :=
  String.concat "" (replicate (targetLength - String.length s)%nat "0"%string) +:+ s.

(** date-fns [addLeadingZeros(number, targetLength)]:
    [sign + Math.abs(number).toString().padStart(targetLength, '0')]. *)
Definition addLeadingZeros (number : Z) (targetLength : nat) : string :=
  (if (number <? 0)%Z then "-" else "")%string +:+ padStart0 targetLength (pretty (Z.abs_N number)).

Definition getHours (d : Date) : Z := msOfDay d / 3600000.
Definition getMinutes (d : Date) : Z := (msOfDay d / 60000) mod 60.
Definition getSeconds (d : Date) : Z := (msOfDay d / 1000) mod 60.

(** [format(d, 'HH:mm:ss')] *)
Definition format_HHmmss (d : Date) : string :=
  addLeadingZeros (getHours d) 2 +:+ ":" +:+
  addLeadingZeros (getMinutes d) 2 +:+ ":" +:+
  addLeadingZeros (getSeconds d) 2.

(** ** Data model *)

Definition FRIENDS : list string :=
  [ "Yolanda"; "Fadhil"; "Nisa"; "Aurel"; "Jihan";
    "Alisa"; "Opang"; "Clara"; "Caca" ]%string.

Record AttendanceRecord := mkAttendanceRecord {
  name : string;
  time : option string;
  isPresent : bool
}.

Abbreviation DailyData := (gmap string (list AttendanceRecord)).

Inductive Action := masuk | keluar.

Record LogEntry := mkLogEntry {
  log_id : string;
  log_name : string;
  log_action : Action;
  log_time : string;
  log_date : string
}.

#[global] Instance AttendanceRecord_eq_dec : EqDecision AttendanceRecord.
Proof. solve_decision. Defined.
#[global] Instance Action_eq_dec : EqDecision Action.
Proof. solve_decision. Defined.
#[global] Instance LogEntry_eq_dec : EqDecision LogEntry.
Proof. solve_decision. Defined.

(** The state cells of [App] that the handlers read and write. *)
Record AppState := mkAppState {
  history : DailyData;
  logs : list LogEntry;
  selectedDate : string
}.

(** What a handler reads from its environment: [new Date()] and the
    successive values of [Math.random().toString(36).substr(2, 9)]. *)
Record Env := mkEnv {
  now : Date;
  randomId : nat -> string
}.

(** [FRIENDS.map(name => ({ name, time: null, isPresent: false }))] *)
Definition defaultDay : list AttendanceRecord :=
  map (fun n => {| name := n; time := None; isPresent := false |}) FRIENDS.

(** ** Reading the selected day *)

(** A computation that may read and write the state cells. *)
Definition Cell (A : Type) : Type := AppState -> A * AppState.

(** [currentAttendance]: the memoised value only reads [history] and
    [selectedDate]; arrays are truthy, so the test is a presence test. *)
Definition currentAttendance : Cell (list AttendanceRecord) :=
  fun st =>
    (match history st !! selectedDate st with
     | Some records => records
     | None => defaultDay
     end, st).

(** ** The activity log *)

(** The updater passed to [setLogs]:
    [prevLogs => [newLog, ...prevLogs].slice(0, 100)]. *)
Definition prependLog (newLog : LogEntry) (prevLogs : list LogEntry) : list LogEntry :=
  take 100 (newLog :: prevLogs).

(** ** Toggling *)

(** Effects of the callback given to [dayData.map] inside the [setHistory]
    updater: the queue of [setLogs] updaters, applied here as they are
    queued, and the number of [Math.random] calls made so far. *)
Record Effects := mkEffects { fx_logs : list LogEntry; fx_rand : nat }.

Definition Upd (A : Type) : Type := Effects -> A * Effects.

#[global] Instance Upd_ret : MRet Upd := fun A x fx => (x, fx).
#[global] Instance Upd_bind : MBind Upd :=
  fun A B f m fx => let '(a, fx') := m fx in f a fx'.

Definition setLogs (f : list LogEntry -> list LogEntry) : Upd unit :=
  fun fx => (tt, {| fx_logs := f (fx_logs fx); fx_rand := fx_rand fx |}).

Definition mathRandomId (e : Env) : Upd string :=
  fun fx => (randomId e (fx_rand fx),
             {| fx_logs := fx_logs fx; fx_rand := S (fx_rand fx) |}).

(** The callback of [dayData.map] in [toggleAttendance]. *)
Definition toggleRecord (e : Env) (selDate nm timeStr : string)
    (record : AttendanceRecord) : Upd AttendanceRecord :=
  if String.eqb (name record) nm then
    let isNowPresent := negb (isPresent record) in
    i ← mathRandomId e;
    let newLog := {| log_id := i;
                     log_name := nm;
                     log_action := if isNowPresent then masuk else keluar;
                     log_time := timeStr;
                     log_date := selDate |} in
    _ ← setLogs (prependLog newLog);
    mret {| name := name record;
            isPresent := isNowPresent;
            time := if isNowPresent then Some timeStr else None |}
  else mret record.

Definition toggleAttendance (e : Env) (nm : string) (st : AppState) : AppState :=
  let timeStr := format_HHmmss (now e) in
  let prev := history st in
  let dayData := default defaultDay (prev !! selectedDate st) in
  let '(updatedDayData, fx) :=
    mapM (toggleRecord e (selectedDate st) nm timeStr) dayData
         {| fx_logs := logs st; fx_rand := 0 |} in
  {| history := <[selectedDate st := updatedDayData]> prev;
     logs := fx_logs fx;
     selectedDate := selectedDate st |}.

(** ** Resetting *)

(** [confirmed] is the answer of [window.confirm]. *)
Definition resetAttendance (confirmed : bool) (st : AppState) : AppState :=
  if confirmed then
    {| history := <[selectedDate st := defaultDay]> (history st);
       logs := logs st;
       selectedDate := selectedDate st |}
  else st.

(** [setSelectedDate(e.target.value)] *)
Definition setSelectedDate (d : string) (st : AppState) : AppState :=
  {| history := history st; logs := logs st; selectedDate := d |}.

(** ** Calendar

    The Gregorian calendar behind [getFullYear], [getMonth], [getDate] and
    the [Date] constructor, on day numbers (era arithmetic over 400-year
    cycles of 146097 days, the year starting in March). *)

Definition civil_from_days (n : Z) : Z * Z * Z :=
  let z := n + 719468 in
  let era := z / 146097 in
  let doe := z mod 146097 in
  let yoe := (doe - doe / 1460 + doe / 36524 - doe / 146096) / 365 in
  let doy := doe - (365 * yoe + yoe / 4 - yoe / 100) in
  let mp := (5 * doy + 2) / 153 in
  let d := doy - (153 * mp + 2) / 5 + 1 in
  let m := if mp <? 10 then mp + 3 else mp - 9 in
  let y := yoe + era * 400 in
  (if m <=? 2 then y + 1 else y, m, d).

Definition days_from_civil (y m d : Z) : Z :=
  let y' := if m <=? 2 then y - 1 else y in
  let era := y' / 400 in
  let yoe := y' mod 400 in
  let doy := (153 * (if 2 <? m then m - 3 else m + 9) + 2) / 5 + d - 1 in
  let doe := yoe * 365 + yoe / 4 - yoe / 100 + doy in
  era * 146097 + doe - 719468.

Definition getFullYear (d : Date) : Z := (civil_from_days (dayNumber d)).1.1.
(** [getMonth] counts from 0. *)
Definition getMonth (d : Date) : Z := (civil_from_days (dayNumber d)).1.2 - 1.
Definition getDate (d : Date) : Z := (civil_from_days (dayNumber d)).2.
(** [getDay]: 0 is Sunday; 1970-01-01 was a Thursday. *)
Definition getDay (d : Date) : Z := (dayNumber d + 4) mod 7.

(** date-fns [startOfWeek(date, { weekStartsOn: 1 })]:
    [diff = (day < weekStartsOn ? 7 : 0) + day - weekStartsOn], then
    [setDate(getDate() - diff)] and [setHours(0, 0, 0, 0)]. *)
Definition startOfWeek (d : Date) : Date :=
  let weekStartsOn := 1 in
  let day := getDay d in
  let diff := (if day <? weekStartsOn then 7 else 0) + day - weekStartsOn in
  {| dayNumber := dayNumber d - diff; msOfDay := 0 |}.

(** date-fns [addDays(date, amount)]: [setDate(getDate() + amount)]. *)
Definition addDays (d : Date) (amount : Z) : Date :=
  {| dayNumber := dayNumber d + amount; msOfDay := msOfDay d |}.

(** [format(d, 'yyyy-MM-dd')]; the token [y] prints the year of the era:
    [signedYear > 0 ? signedYear : 1 - signedYear]. *)
Definition format_yyyyMMdd (d : Date) : string :=
  let signedYear := getFullYear d in
  let year := if 0 <? signedYear then signedYear else 1 - signedYear in
  addLeadingZeros year 4 +:+ "-" +:+
  addLeadingZeros (getMonth d + 1) 2 +:+ "-" +:+
  addLeadingZeros (getDate d) 2.

Definition isDigit (c : ascii) : bool :=
  let n := nat_of_ascii c in (48 <=? n)%nat && (n <=? 57)%nat.

Definition digitValue (c : ascii) : Z := Z.of_nat (nat_of_ascii c) - 48.

(** date-fns [isLeapYearIndex] and [validateDate] of [parseISO]. *)
Definition isLeapYearIndex (year : Z) : bool :=
  (year mod 400 =? 0) || ((year mod 4 =? 0) && negb (year mod 100 =? 0)).

Definition daysInMonth (year month : Z) : Z :=
  if month =? 1 then (if isLeapYearIndex year then 29 else 28)
  else if (month =? 3) || (month =? 5) || (month =? 8) || (month =? 10) then 30
  else 31.

Definition validateDate (year month date : Z) : bool :=
  (0 <=? month) && (month <=? 11) && (1 <=? date) && (date <=? daysInMonth year month).

(** date-fns [parseISO] on the calendar-date form [YYYY-MM-DD] (the form
    of the strings that [format_yyyyMMdd] prints for the years 1 to 9999),
    which it reads as local midnight of that day.  [None] is the
    [Invalid Date]; a string of another form is taken as invalid here. *)
Definition parseISO (s : string) : option Date :=
  match s with
  | String y1 (String y2 (String y3 (String y4 (String "-"
    (String m1 (String m2 (String "-" (String d1 (String d2 EmptyString))))))))) =>
      if forallb isDigit [y1; y2; y3; y4; m1; m2; d1; d2] then
        let year := 1000 * digitValue y1 + 100 * digitValue y2
                    + 10 * digitValue y3 + digitValue y4 in
        let month := 10 * digitValue m1 + digitValue m2 - 1 in
        let day := 10 * digitValue d1 + digitValue d2 in
        if validateDate year month day then
          Some {| dayNumber := days_from_civil year (month + 1) day; msOfDay := 0 |}
        else None
      else None
  | _ => None
  end.

(** date-fns [isSameDay(a, b)]: [+startOfDay(a) === +startOfDay(b)]; the
    time value of an invalid date is [NaN], which equals nothing. *)
Definition isSameDay (a b : option Date) : bool :=
  match a, b with
  | Some x, Some y => bool_decide (dayNumber x = dayNumber y)
  | _, _ => false
  end.

(** Abbreviated day names of the date-fns locale [id], from Sunday. *)
Definition dayValues_abbreviated : list string :=
  [ "Min"; "Sen"; "Sel"; "Rab"; "Kam"; "Jum"; "Sab" ]%string.

(** [format(d, 'EEE', { locale: id })]; [format] throws a [RangeError] on
    an invalid date. *)
Definition format_EEE (d : option Date) : Completion string :=
  match d with
  | Some x => Normal (default ""%string (dayValues_abbreviated !! Z.to_nat (getDay x)))
  | None => Throw RangeError
  end.

(** ** Statistics *)

Record WeeklyStat := mkWeeklyStat {
  ws_name : string;
  fullDate : string;
  count : nat;
  isToday : bool
}.

(** [weeklyStats]; [clock k] is the value of the [k]-th evaluation of
    [new Date()] in the computation: one for [start], then one per day in
    the test [isSameDay(parseISO(date), new Date())]. *)
Definition weeklyStats (clock : nat -> Date) (hist : DailyData)
    : Completion (list WeeklyStat) :=
  let start := startOfWeek (clock 0%nat) in
  let days := map (fun i => format_yyyyMMdd (addDays start (Z.of_nat i))) (seq 0 7) in
  mapM (fun '(k, date) =>
          let dayData := default [] (hist !! date) in
          nm ← format_EEE (parseISO date);
          mret {| ws_name := nm;
                  fullDate := date;
                  count := length (filter (fun r => isPresent r = true) dayData);
                  isToday := isSameDay (parseISO date) (Some (clock (S k))) |})
       (imap pair days).

Record FriendStat := mkFriendStat {
  fs_name : string;
  total : nat
}.

(** The body of the [forEach] in [friendStats]: [find] returns a record
    (truthy) or [undefined]. *)
Definition countDay (nm : string) (totalPresent : nat)
    (records : list AttendanceRecord) : nat :=
  match List.find (fun r => String.eqb (name r) nm && isPresent r) records with
  | Some _ => S totalPresent
  | None => totalPresent
  end.

(** [Array.prototype.sort(compareFn)] is stable; with a comparator that
    is a consistent ordering its result is determined.  It is modelled by
    a stable insertion sort: an element is put before the elements that
    were after it unless the comparator orders it strictly after them. *)
Fixpoint insertBy {A} (compareFn : A -> A -> Z) (x : A) (l : list A) : list A :=
  match l with
  | [] => [x]
  | y :: l' => if compareFn x y <=? 0 then x :: l else y :: insertBy compareFn x l'
  end.

Definition sortBy {A} (compareFn : A -> A -> Z) (l : list A) : list A :=
  foldr (insertBy compareFn) [] l.

(** [Object.values(history)]: the counting below does not depend on the
    order of the values. *)
Definition Object_values (hist : DailyData) : list (list AttendanceRecord) :=
  (map_to_list hist).*2.

Definition friendTotals (hist : DailyData) : list FriendStat :=
  map (fun nm => {| fs_name := nm;
                    total := fold_left (countDay nm) (Object_values hist) 0%nat |})
      FRIENDS.

Definition friendStats (hist : DailyData) : list FriendStat :=
  sortBy (fun a b => Z.of_nat (total b) - Z.of_nat (total a)) (friendTotals hist).

(** ** JSON text

    [JSON.parse] after the JSON grammar of ECMA-404.  A number keeps its
    lexeme; a string is its sequence of code units, since an escape
    [\uXXXX] can denote a unit that no single input character does; an
    object keeps its members as written. *)

#[local] Unset Elimination Schemes.
Inductive json :=
| JNull
| JBool (b : bool)
| JNumber (lexeme : string)
| JString (units : list N)
| JArray (items : list json)
| JObject (members : list (list N * json)).
#[local] Set Elimination Schemes.

(** Outcome of a parsing function: a value and the rest of the text, a
    syntax error, or the recursion budget used up. *)
Inductive Parsed (A : Type) :=
| Got (a : A) (rest : string)
| Bad
| OutOfFuel.
Arguments Got {A} a rest.
Arguments Bad {A}.
Arguments OutOfFuel {A}.

Definition isWhitespace (c : ascii) : bool :=
  match nat_of_ascii c with
  | 32%nat | 9%nat | 10%nat | 13%nat => true
  | _ => false
  end.

Fixpoint skipWhitespace (s : string) : string :=
  match s with
  | String c r => if isWhitespace c then skipWhitespace r else s
  | EmptyString => s
  end.

(** The longest prefix of digits, and the rest. *)
Fixpoint spanDigits (s : string) : string * string :=
  match s with
  | String c r =>
      if isDigit c then let '(ds, r') := spanDigits r in (String c ds, r')
      else (EmptyString, s)
  | EmptyString => (EmptyString, s)
  end.

Definition hexValue (c : ascii) : option N :=
  let n := N_of_ascii c in
  if (48 <=? n)%N && (n <=? 57)%N then Some (n - 48)%N
  else if (65 <=? n)%N && (n <=? 70)%N then Some (n - 55)%N
  else if (97 <=? n)%N && (n <=? 102)%N then Some (n - 87)%N
  else None.

(** The rest of a text that begins with the given characters. *)
Fixpoint dropPrefix (prefix s : string) : option string :=
  match prefix, s with
  | EmptyString, _ => Some s
  | String p prefix', String c r => if Ascii.eqb p c then dropPrefix prefix' r else None
  | String _ _, EmptyString => None
  end.

(** A number: an optional minus sign; then a single 0 or a digit from 1
    to 9 followed by any digits; then optionally a point and one or more
    digits; then optionally e or E, an optional sign and one or more
    digits. *)
Definition parseInt (s : string) : Parsed string :=
  match s with
  | String c r =>
      if Ascii.eqb c "0" then Got "0"%string r
      else if isDigit c then let '(ds, r') := spanDigits r in Got (String c ds) r'
      else Bad
  | EmptyString => Bad
  end.

Definition parseFrac (s : string) : Parsed string :=
  match dropPrefix "." s with
  | Some r =>
      match spanDigits r with
      | (EmptyString, _) => Bad
      | (ds, r') => Got ("." +:+ ds) r'
      end
  | None => Got EmptyString s
  end.

Definition parseExp (s : string) : Parsed string :=
  match s with
  | String c r =>
      if (Ascii.eqb c "e" || Ascii.eqb c "E")%bool then
        let '(sg, r1) :=
          match dropPrefix "+" r, dropPrefix "-" r with
          | Some r1, _ => ("+"%string, r1)
          | None, Some r1 => ("-"%string, r1)
          | None, None => (EmptyString, r)
          end in
        match spanDigits r1 with
        | (EmptyString, _) => Bad
        | (ds, r2) => Got (String c sg +:+ ds) r2
        end
      else Got EmptyString s
  | EmptyString => Got EmptyString s
  end.

Definition parseNumber (s : string) : Parsed string :=
  let '(sign, s1) :=
    match dropPrefix "-" s with
    | Some r => ("-"%string, r)
    | None => (EmptyString, s)
    end in
  match parseInt s1 with
  | Got i s2 =>
      match parseFrac s2 with
      | Got f s3 =>
          match parseExp s3 with
          | Got x s4 => Got (sign +:+ i +:+ f +:+ x) s4
          | Bad => Bad
          | OutOfFuel => OutOfFuel
          end
      | Bad => Bad
      | OutOfFuel => OutOfFuel
      end
  | Bad => Bad
  | OutOfFuel => OutOfFuel
  end.

Definition consUnit (u : N) (p : Parsed (list N)) : Parsed (list N) :=
  match p with
  | Got us r => Got (u :: us) r
  | Bad => Bad
  | OutOfFuel => OutOfFuel
  end.

(** The characters of a string literal after its opening quote, up to and
    including the closing quote. *)
Fixpoint parseChars (s : string) : Parsed (list N) :=
  match s with
  | EmptyString => Bad
  | String c r =>
      if Ascii.eqb c "034" then Got [] r
      else if Ascii.eqb c "\" then
        match r with
        | String e r' =>
            if Ascii.eqb e "034" then consUnit 34 (parseChars r')
            else if Ascii.eqb e "\" then consUnit 92 (parseChars r')
            else if Ascii.eqb e "/" then consUnit 47 (parseChars r')
            else if Ascii.eqb e "b" then consUnit 8 (parseChars r')
            else if Ascii.eqb e "f" then consUnit 12 (parseChars r')
            else if Ascii.eqb e "n" then consUnit 10 (parseChars r')
            else if Ascii.eqb e "r" then consUnit 13 (parseChars r')
            else if Ascii.eqb e "t" then consUnit 9 (parseChars r')
            else if Ascii.eqb e "u" then
              match r' with
              | String h1 (String h2 (String h3 (String h4 r''))) =>
                  match hexValue h1, hexValue h2, hexValue h3, hexValue h4 with
                  | Some a, Some b, Some c', Some d =>
                      consUnit (4096 * a + 256 * b + 16 * c' + d)%N (parseChars r'')
                  | _, _, _, _ => Bad
                  end
              | _ => Bad
              end
            else Bad
        | EmptyString => Bad
        end
      else if (N_of_ascii c <? 32)%N then Bad
      else consUnit (N_of_ascii c) (parseChars r)
  end.

Definition mapParsed {A B} (f : A -> B) (p : Parsed A) : Parsed B :=
  match p with
  | Got a r => Got (f a) r
  | Bad => Bad
  | OutOfFuel => OutOfFuel
  end.

(** A value, the elements of an array after its opening bracket or a
    comma, and the members of an object after its opening brace or a
    comma.  [fuel] bounds the depth of the calls. *)
Fixpoint parseValue (fuel : nat) (s : string) : Parsed json :=
  match fuel with
  | O => OutOfFuel
  | S fuel' =>
      match skipWhitespace s with
      | EmptyString => Bad
      | String c r =>
          if Ascii.eqb c "n" then
            match dropPrefix "ull" r with Some r' => Got JNull r' | None => Bad end
          else if Ascii.eqb c "t" then
            match dropPrefix "rue" r with Some r' => Got (JBool true) r' | None => Bad end
          else if Ascii.eqb c "f" then
            match dropPrefix "alse" r with Some r' => Got (JBool false) r' | None => Bad end
          else if Ascii.eqb c "034" then mapParsed JString (parseChars r)
          else if Ascii.eqb c "[" then
            match dropPrefix "]" (skipWhitespace r) with
            | Some r' => Got (JArray []) r'
            | None => mapParsed JArray (parseElements fuel' r)
            end
          else if Ascii.eqb c "{" then
            match dropPrefix "}" (skipWhitespace r) with
            | Some r' => Got (JObject []) r'
            | None => mapParsed JObject (parseMembers fuel' r)
            end
          else mapParsed JNumber (parseNumber (String c r))
      end
  end
with parseElements (fuel : nat) (s : string) : Parsed (list json) :=
  match fuel with
  | O => OutOfFuel
  | S fuel' =>
      match parseValue fuel' s with
      | Got v r =>
          match skipWhitespace r with
          | String c r' =>
              if Ascii.eqb c "," then mapParsed (cons v) (parseElements fuel' r')
              else if Ascii.eqb c "]" then Got [v] r'
              else Bad
          | EmptyString => Bad
          end
      | Bad => Bad
      | OutOfFuel => OutOfFuel
      end
  end
with parseMembers (fuel : nat) (s : string) : Parsed (list (list N * json)) :=
  match fuel with
  | O => OutOfFuel
  | S fuel' =>
      match dropPrefix (String "034" EmptyString) (skipWhitespace s) with
      | Some r =>
          match parseChars r with
          | Got k r1 =>
              match dropPrefix ":" (skipWhitespace r1) with
              | Some r2 =>
                  match parseValue fuel' r2 with
                  | Got v r3 =>
                      match skipWhitespace r3 with
                      | String c r4 =>
                          if Ascii.eqb c "," then
                            mapParsed (cons (k, v)) (parseMembers fuel' r4)
                          else if Ascii.eqb c "}" then Got [(k, v)] r4
                          else Bad
                      | EmptyString => Bad
                      end
                  | Bad => Bad
                  | OutOfFuel => OutOfFuel
                  end
              | None => Bad
              end
          | Bad => Bad
          | OutOfFuel => OutOfFuel
          end
      | None => Bad
      end
  end.

(** Budget for a text: every nested call is made after at least one more
    character of the text has been read. *)
Definition parseFuel (s : string) : nat := (2 * String.length s + 1)%nat.

(** [JSON.parse(text)]: one value with whitespace around it, or a
    [SyntaxError]. *)
Definition JSON_parse (text : string) : Completion json :=
  match parseValue (parseFuel text) text with
  | Got v r =>
      match skipWhitespace r with
      | EmptyString => Normal v
      | _ => Throw SyntaxError
      end
  | Bad => Throw SyntaxError
  | OutOfFuel => Throw SyntaxError
  end.

(** ** Loading the persisted state *)

(** [localStorage]: [getItem] gives [null] for a key that is not there. *)
Definition getItem (storage : gmap string string) (key : string) : option string :=
  storage !! key.

(** A string is truthy unless it is empty. *)
Definition truthy (s : option string) : bool :=
  match s with
  | Some (String _ _) => true
  | _ => false
  end.

(** The initialiser of the [history] cell:
    [if (saved) return JSON.parse(saved); return {};]. *)
Definition initHistory (storage : gmap string string) : Completion json :=
  let saved := getItem storage "attendance_history_v2" in
  if truthy saved then JSON_parse (default EmptyString saved)
  else Normal (JObject []).

(** The initialiser of the [logs] cell:
    [saved ? JSON.parse(saved) : []]. *)
Definition initLogs (storage : gmap string string) : Completion json :=
  let saved := getItem storage "attendance_logs_v2" in
  if truthy saved then JSON_parse (default EmptyString saved)
  else Normal (JArray []).

(** The first render of [App] runs the two initialisers in this order;
    nothing catches what they throw. *)
Definition startup (storage : gmap string string) : Completion (json * json) :=
  h ← initHistory storage;
  l ← initLogs storage;
  mret (h, l).

(** ** Vocabulary of the statements *)

(** The records shown for a date: the stored set, or the default set. *)
Definition recordsOn (hist : DailyData) (d : string) : list AttendanceRecord :=
  default defaultDay (hist !! d).

(** The record that [toggleRecord] returns for a record it matches. *)
Definition flipped (timeStr : string) (r : AttendanceRecord) : AttendanceRecord :=
  {| name := name r;
     isPresent := negb (isPresent r);
     time := if negb (isPresent r) then Some timeStr else None |}.

(** The log entry that [toggleRecord] queues for a record it matches,
    when [k] calls of [Math.random] came before. *)
Definition entryFor (e : Env) (selDate : string) (k : nat) (r : AttendanceRecord)
    : LogEntry :=
  {| log_id := randomId e k;
     log_name := name r;
     log_action := if isPresent r then keluar else masuk;
     log_time := format_HHmmss (now e);
     log_date := selDate |}.

Definition absentRecord (r : AttendanceRecord) : Prop :=
  isPresent r = false ∧ time r = None.

(** The invariant of a record: absent exactly when it has no time. *)
Definition recordOK (r : AttendanceRecord) : Prop :=
  isPresent r = false ↔ time r = None.

Definition storeOK (hist : DailyData) : Prop :=
  ∀ d records, hist !! d = Some records → Forall recordOK records.

(** Appending entries to the log one after the other, first to last. *)
Definition appendAll (entries : list LogEntry) (log : list LogEntry) : list LogEntry :=
  fold_left (fun l e => prependLog e l) entries log.

(** Whether a record set counts for a name in [friendStats]: it holds a
    present record of that name. *)
Definition presentIn (nm : string) (records : list AttendanceRecord) : Prop :=
  Exists (fun r => name r = nm ∧ isPresent r = true) records.

#[global] Instance presentIn_dec nm records : Decision (presentIn nm records).
Proof. unfold presentIn. apply _. Defined.

(** The entry that [weeklyStats] computes for the [k]-th day of a week
    starting on day [monday], when the clock reads day [today]. *)
Definition weekEntry (hist : DailyData) (monday today : Z) (k : nat) : WeeklyStat :=
  let day := {| dayNumber := monday + Z.of_nat k; msOfDay := 0 |} in
  {| ws_name := default EmptyString (dayValues_abbreviated !! Z.to_nat (getDay day));
     fullDate := format_yyyyMMdd day;
     count := length (filter (fun r => isPresent r = true)
                             (default [] (hist !! format_yyyyMMdd day)));
     isToday := bool_decide (monday + Z.of_nat k = today) |}.


(** ** The rest of the component *)

(** [presentCount]: [currentAttendance.filter(r => r.isPresent).length],
    shown beside [FRIENDS.length]. *)
Definition presentCount (st : AppState) : nat :=
  length (filter (fun r => isPresent r = true) (currentAttendance st).1).

(** [friendStats.slice(0, 3)]: the entries listed as the most diligent. *)
Definition topFriends (hist : DailyData) : list FriendStat :=
  take 3 (friendStats hist).

(** A store in which every stored record set lists the roster, in order. *)
Definition rosterShaped (hist : DailyData) : Prop :=
  ∀ d records, hist !! d = Some records → name <$> records = FRIENDS.

(** The states that the rendered page can get to from a given state: the
    date input sets the selected date, the reset button asks and resets,
    and each row's button toggles the name of a record that
    [currentAttendance] lists. *)
Inductive reachableFrom (st0 : AppState) : AppState → Prop :=
| reach_start : reachableFrom st0 st0
| reach_select st d :
    reachableFrom st0 st → reachableFrom st0 (setSelectedDate d st)
| reach_reset st confirmed :
    reachableFrom st0 st → reachableFrom st0 (resetAttendance confirmed st)
| reach_toggle st e r :
    reachableFrom st0 st →
    r ∈ (currentAttendance st).1 →
    reachableFrom st0 (toggleAttendance e (name r) st).

(** The state after a first load with nothing stored, on the date [d]. *)
Definition freshState (d : string) : AppState :=
  {| history := ∅; logs := []; selectedDate := d |}.

(** ** Saving the state

    [JSON.stringify] on the values the component stores: objects whose
    properties are strings, [null] and booleans, and arrays of them. *)

(** A lowercase hexadecimal digit. *)
Definition hexDigit (n : N) : ascii :=
  if (n <? 10)%N then ascii_of_N (48 + n) else ascii_of_N (87 + n).

(** What [QuoteJSONString] writes for one code unit: the short escapes,
    [\u00xx] for the other control characters, the unit itself otherwise. *)
Definition escapeUnit (c : ascii) : string :=
  let n := N_of_ascii c in
  if (n =? 8)%N then "\b"
  else if (n =? 9)%N then "\t"
  else if (n =? 10)%N then "\n"
  else if (n =? 12)%N then "\f"
  else if (n =? 13)%N then "\r"
  else if (n =? 34)%N then String "\" (String "034" EmptyString)
  else if (n =? 92)%N then "\\"
  else if (n <? 32)%N then
    "\u00" +:+ String (hexDigit (n / 16)) (String (hexDigit (n mod 16)) EmptyString)
  else String c EmptyString.

Fixpoint escapeString (s : string) : string :=
  match s with
  | EmptyString => EmptyString
  | String c r => escapeUnit c +:+ escapeString r
  end.

Definition QuoteJSONString (s : string) : string :=
  String "034" (escapeString s +:+ String "034" EmptyString).

(** A property of an object: the quoted key, a colon, the value. *)
Definition stringifyProperty (key value : string) : string :=
  QuoteJSONString key +:+ ":" +:+ value.

Definition stringifyObject (properties : list string) : string :=
  "{" +:+ String.concat "," properties +:+ "}".

Definition stringifyArray (elements : list string) : string :=
  "[" +:+ String.concat "," elements +:+ "]".

(** A record has its properties in the order [name], [time], [isPresent]:
    the order of the literal that creates it, which the spread in
    [toggleAttendance] keeps. *)
Definition stringifyRecord (r : AttendanceRecord) : string :=
  stringifyObject
    [ stringifyProperty "name" (QuoteJSONString (name r));
      stringifyProperty "time"
        (match time r with Some t => QuoteJSONString t | None => "null"%string end);
      stringifyProperty "isPresent" (if isPresent r then "true" else "false")%string ].

Definition stringifyDay (records : list AttendanceRecord) : string :=
  stringifyArray (stringifyRecord <$> records).

(** [JSON.stringify(history)]; [entries] are the properties of the object
    in the order the object has them. *)
Definition stringifyHistory (entries : list (string * list AttendanceRecord)) : string :=
  stringifyObject ((fun kv => stringifyProperty kv.1 (stringifyDay kv.2)) <$> entries).

Definition stringifyLogEntry (x : LogEntry) : string :=
  stringifyObject
    [ stringifyProperty "id" (QuoteJSONString (log_id x));
      stringifyProperty "name" (QuoteJSONString (log_name x));
      stringifyProperty "action"
        (QuoteJSONString (match log_action x with masuk => "masuk" | keluar => "keluar" end));
      stringifyProperty "time" (QuoteJSONString (log_time x));
      stringifyProperty "date" (QuoteJSONString (log_date x)) ].

(** [JSON.stringify(logs)] *)
Definition stringifyLogs (l : list LogEntry) : string :=
  stringifyArray (stringifyLogEntry <$> l).

(** The two effects that save the state:
    [localStorage.setItem(key, JSON.stringify(value))]. *)
Definition saveHistory (entries : list (string * list AttendanceRecord))
    (storage : gmap string string) : gmap string string :=
  <["attendance_history_v2"%string := stringifyHistory entries]> storage.

Definition saveLogs (l : list LogEntry) (storage : gmap string string)
    : gmap string string :=
  <["attendance_logs_v2"%string := stringifyLogs l]> storage.

(** ** Reading a parsed value at the types of the component

    The component uses what [JSON.parse] returns as a [DailyData] or a
    [LogEntry[]] without a check.  These functions say which parsed value
    is which typed value: a property is looked up by its key, the last
    binding of a key counting. *)

Definition stringUnits (s : string) : list N :=
  N_of_ascii <$> list_ascii_of_string s.

Definition unitsString (us : list N) : option string :=
  string_of_list_ascii
    <$> mapM (fun u => if (u <? 256)%N then Some (ascii_of_N u) else None) us.

Fixpoint getProperty (key : list N) (members : list (list N * json)) : option json :=
  match members with
  | [] => None
  | (k, v) :: rest =>
      match getProperty key rest with
      | Some v' => Some v'
      | None => if decide (k = key) then Some v else None
      end
  end.

Definition asString (j : json) : option string :=
  match j with JString us => unitsString us | _ => None end.

Definition asNullableString (j : json) : option (option string) :=
  match j with
  | JNull => Some None
  | JString us => Some <$> unitsString us
  | _ => None
  end.

Definition asBoolean (j : json) : option bool :=
  match j with JBool b => Some b | _ => None end.

Definition asRecord (j : json) : option AttendanceRecord :=
  match j with
  | JObject ms =>
      n ← getProperty (stringUnits "name") ms ≫= asString;
      t ← getProperty (stringUnits "time") ms ≫= asNullableString;
      p ← getProperty (stringUnits "isPresent") ms ≫= asBoolean;
      Some {| name := n; time := t; isPresent := p |}
  | _ => None
  end.

Definition asDay (j : json) : option (list AttendanceRecord) :=
  match j with JArray items => mapM asRecord items | _ => None end.

Definition asDailyData (j : json) : option DailyData :=
  match j with
  | JObject ms =>
      list_to_map
        <$> mapM (fun kv => k ← unitsString kv.1; d ← asDay kv.2; Some (k, d))
                 (reverse ms)
  | _ => None
  end.

Definition asAction (j : json) : option Action :=
  s ← asString j;
  if String.eqb s "masuk" then Some masuk
  else if String.eqb s "keluar" then Some keluar
  else None.

Definition asLogEntry (j : json) : option LogEntry :=
  match j with
  | JObject ms =>
      i ← getProperty (stringUnits "id") ms ≫= asString;
      n ← getProperty (stringUnits "name") ms ≫= asString;
      a ← getProperty (stringUnits "action") ms ≫= asAction;
      t ← getProperty (stringUnits "time") ms ≫= asString;
      d ← getProperty (stringUnits "date") ms ≫= asString;
      Some {| log_id := i; log_name := n; log_action := a; log_time := t; log_date := d |}
  | _ => None
  end.

Definition asLogs (j : json) : option (list LogEntry) :=
  match j with JArray items => mapM asLogEntry items | _ => None end.

(** A text that the parser reads as the value [v] whatever follows it,
    given a budget of at least [n]; it begins with a character that is
    neither whitespace nor a closing bracket. *)
Definition parsesAs (n : nat) (text : string) (v : json) : Prop :=
  (∃ c r, text = String c r ∧ isWhitespace c = false
          ∧ Ascii.eqb c "]" = false ∧ Ascii.eqb c "}" = false)
  ∧ ∀ fuel rest, (n ≤ fuel)%nat → parseValue fuel (text +:+ rest) = Got v rest.

(** * Properties *)

(** ** The default set *)

Lemma defaultDay_names : name <$> defaultDay = FRIENDS.
Proof. reflexivity. Qed.

Lemma defaultDay_absent : Forall absentRecord defaultDay.
Proof. unfold defaultDay. apply Forall_fmap, Forall_true. intros n. by split. Qed.

Lemma defaultDay_OK : Forall recordOK defaultDay.
Proof.
  eapply Forall_impl; [apply defaultDay_absent|].
  intros r [Hp Ht]. unfold recordOK. by rewrite Hp, Ht.
Qed.

(** ** Running the callback of [toggleAttendance] over a record set *)

Section ToggleRun.
Context (e : Env) (selDate nm : string).

Let run := mapM (toggleRecord e selDate nm (format_HHmmss (now e))).

Lemma toggleRecord_other r fx :
  name r ≠ nm →
  toggleRecord e selDate nm (format_HHmmss (now e)) r fx = (r, fx).
Proof.
  intros Hne. unfold toggleRecord.
  destruct (String.eqb_spec (name r) nm) as [Heq|_]; [by destruct Hne|done].
Qed.

Lemma toggleRecord_match r fx :
  name r = nm →
  toggleRecord e selDate nm (format_HHmmss (now e)) r fx
  = (flipped (format_HHmmss (now e)) r,
     {| fx_logs := prependLog (entryFor e selDate (fx_rand fx) r) (fx_logs fx);
        fx_rand := S (fx_rand fx) |}).
Proof.
  intros Heq. unfold toggleRecord.
  destruct (String.eqb_spec (name r) nm) as [_|Hne]; [|by destruct Hne].
  unfold entryFor, flipped. rewrite Heq. destruct (isPresent r); reflexivity.
Qed.

Lemma run_cons r l fx :
  run (r :: l) fx
  = let '(r', fx1) := toggleRecord e selDate nm (format_HHmmss (now e)) r fx in
    let '(l', fx2) := run l fx1 in (r' :: l', fx2).
Proof.
  unfold run. simpl. unfold mbind at 1, Upd_bind.
  destruct (toggleRecord _ _ _ _ r fx) as [r' fx1].
  unfold mbind, Upd_bind.
  by destruct (mapM (M:=Upd) _ l fx1) as [l' fx2].
Qed.

(** No record of that name: the set comes back as it is, nothing is
    queued. *)
Lemma run_no_match l fx :
  Forall (fun r => name r ≠ nm) l → run l fx = (l, fx).
Proof.
  induction 1 as [|r l Hr _ IH]; [done|].
  rewrite run_cons, toggleRecord_other by done. by rewrite IH.
Qed.

(** The returned records do not depend on the effects. *)
Lemma run_records l fx :
  (run l fx).1
  = (fun r => if String.eqb (name r) nm
              then flipped (format_HHmmss (now e)) r else r) <$> l.
Proof.
  revert fx. induction l as [|r l IH]; intros fx; [done|].
  rewrite run_cons, fmap_cons.
  destruct (String.eqb_spec (name r) nm) as [Heq|Hne].
  - rewrite toggleRecord_match by done.
    specialize (IH {| fx_logs := prependLog (entryFor e selDate (fx_rand fx) r) (fx_logs fx);
                      fx_rand := S (fx_rand fx) |}).
    destruct (run l _) as [l' fx2]. simpl in *. by rewrite IH.
  - rewrite toggleRecord_other by done.
    specialize (IH fx). destruct (run l fx) as [l' fx2]. simpl in *. by rewrite IH.
Qed.

(** Exactly one record of that name, at index [i]. *)
Lemma run_one_match l i r fx :
  l !! i = Some r → name r = nm →
  (∀ j r', l !! j = Some r' → name r' = nm → j = i) →
  run l fx
  = (<[i := flipped (format_HHmmss (now e)) r]> l,
     {| fx_logs := prependLog (entryFor e selDate (fx_rand fx) r) (fx_logs fx);
        fx_rand := S (fx_rand fx) |}).
Proof.
  revert i. induction l as [|x l IH]; intros i Hi Hr Huniq; [done|].
  rewrite run_cons. destruct i as [|i]; simpl in Hi.
  - injection Hi as ->. rewrite toggleRecord_match by done.
    rewrite run_no_match; [done|].
    apply Forall_lookup. intros j r' Hj Hn.
    specialize (Huniq (S j) r' Hj Hn). discriminate.
  - assert (name x ≠ nm) as Hx.
    { intros Hn. specialize (Huniq 0%nat x eq_refl Hn). discriminate. }
    rewrite toggleRecord_other by done.
    rewrite (IH i) by (try done; intros j r' Hj Hn;
                       specialize (Huniq (S j) r' Hj Hn); by injection Huniq).
    done.
Qed.
End ToggleRun.

(** [toggleAttendance] writes the selected date and no other. *)
Lemma toggleAttendance_history e nm st :
  history (toggleAttendance e nm st)
  = <[selectedDate st :=
        (fun r => if String.eqb (name r) nm
                  then flipped (format_HHmmss (now e)) r else r)
        <$> recordsOn (history st) (selectedDate st)]> (history st).
Proof.
  unfold toggleAttendance, recordsOn.
  pose proof (run_records e (selectedDate st) nm
                (default defaultDay (history st !! selectedDate st))
                {| fx_logs := logs st; fx_rand := 0 |}) as H.
  destruct (mapM (M:=Upd) _ _ _) as [l' fx]. simpl in *. by rewrite H.
Qed.

Lemma toggleAttendance_selectedDate e nm st :
  selectedDate (toggleAttendance e nm st) = selectedDate st.
Proof. unfold toggleAttendance. by destruct (mapM (M:=Upd) _ _ _). Qed.

Lemma toggleAttendance_no_match e nm st :
  Forall (fun r => name r ≠ nm) (recordsOn (history st) (selectedDate st)) →
  toggleAttendance e nm st
  = {| history := <[selectedDate st := recordsOn (history st) (selectedDate st)]> (history st);
       logs := logs st;
       selectedDate := selectedDate st |}.
Proof.
  intros Hno. unfold toggleAttendance. fold (recordsOn (history st) (selectedDate st)).
  by rewrite run_no_match.
Qed.

Lemma toggleAttendance_one_match e nm st i r :
  recordsOn (history st) (selectedDate st) !! i = Some r →
  name r = nm →
  (∀ j r', recordsOn (history st) (selectedDate st) !! j = Some r' → name r' = nm → j = i) →
  toggleAttendance e nm st
  = {| history := <[selectedDate st :=
                      <[i := flipped (format_HHmmss (now e)) r]>
                        (recordsOn (history st) (selectedDate st))]> (history st);
       logs := prependLog (entryFor e (selectedDate st) 0 r) (logs st);
       selectedDate := selectedDate st |}.
Proof.
  intros Hi Hr Huniq. unfold toggleAttendance.
  fold (recordsOn (history st) (selectedDate st)).
  by rewrite (run_one_match _ _ _ _ i r).
Qed.

(** ** Reading a day that has no entry *)

(** C2. For a selected date with no entry in the store, [currentAttendance]
    returns one record per roster name, in roster order (9 records), each
    absent and without a time, and leaves the state as it was. *)
Theorem currentAttendance_unseen_date (st : AppState) :
  history st !! selectedDate st = None →
  let '(records, st') := currentAttendance st in
  name <$> records = FRIENDS
  ∧ length records = 9%nat
  ∧ length records = length FRIENDS
  ∧ Forall (fun r => isPresent r = false ∧ time r = None) records
  ∧ st' = st.
Proof.
  intros Hnone. unfold currentAttendance. rewrite Hnone.
  repeat split; try reflexivity. apply defaultDay_absent.
Qed.

Lemma currentAttendance_unseen_date_witness :
  let st := mkAppState ∅ [] "2024-03-10" in
  history st !! selectedDate st = None
  ∧ let '(records, st') := currentAttendance st in
    name <$> records = FRIENDS
    ∧ length records = 9%nat
    ∧ length records = length FRIENDS
    ∧ Forall (fun r => isPresent r = false ∧ time r = None) records
    ∧ st' = st.
Proof.
  split; [reflexivity|].
  apply (currentAttendance_unseen_date (mkAppState ∅ [] "2024-03-10")).
  reflexivity.
Defined.

(** ** Toggling *)

(** C3. When the selected date's record set holds exactly one record [r]
    of the toggled name, at index [i], [toggleAttendance] replaces that
    record by one with the presence flipped, whose time is the clock's
    time of day if it is now present and [None] if it is now absent; it
    puts exactly one new entry at the front of the log, with action
    [masuk] for an arrival and [keluar] for a departure; the other records
    of the date and the record sets of the other dates stay as they were. *)
Theorem toggleAttendance_flips (e : Env) (nm : string) (st : AppState)
    (i : nat) (r : AttendanceRecord) :
  let d := selectedDate st in
  let dayData := recordsOn (history st) d in
  let timeStr := format_HHmmss (now e) in
  dayData !! i = Some r →
  name r = nm →
  (∀ j r', dayData !! j = Some r' → name r' = nm → j = i) →
  let st' := toggleAttendance e nm st in
  let r' := {| name := nm;
               isPresent := negb (isPresent r);
               time := if isPresent r then None else Some timeStr |} in
  let entry := {| log_id := randomId e 0;
                  log_name := nm;
                  log_action := if isPresent r then keluar else masuk;
                  log_time := timeStr;
                  log_date := d |} in
  history st' !! d = Some (<[i := r']> dayData)
  ∧ recordsOn (history st') d !! i = Some r'
  ∧ (∀ j, j ≠ i → recordsOn (history st') d !! j = dayData !! j)
  ∧ (∀ d', d' ≠ d → history st' !! d' = history st !! d')
  ∧ logs st' = take 100 (entry :: logs st)
  ∧ logs st' = entry :: take 99 (logs st).
Proof.
  intros d dayData timeStr Hi Hr Huniq st' r' entry.
  assert (flipped timeStr r = r') as Hf.
  { unfold flipped, r'. rewrite Hr. by destruct (isPresent r). }
  assert (entryFor e d 0 r = entry) as He.
  { unfold entryFor, entry. by rewrite Hr. }
  unfold st'. rewrite (toggleAttendance_one_match e nm st i r) by done.
  fold d dayData timeStr. rewrite Hf, He. simpl.
  assert (i < length dayData)%nat as Hlt by (by eapply lookup_lt_Some).
  split_and!.
  - by rewrite lookup_insert_eq.
  - unfold recordsOn. rewrite lookup_insert_eq. simpl.
    by rewrite list_lookup_insert_eq.
  - intros j Hj. unfold recordsOn at 1. rewrite lookup_insert_eq. simpl.
    by rewrite list_lookup_insert_ne.
  - intros d' Hd. by rewrite lookup_insert_ne.
  - reflexivity.
  - reflexivity.
Qed.

Lemma toggleAttendance_flips_witness :
  let e := {| now := mkDate 19792 29109000; randomId := fun _ => "k3j9x0q1z"%string |} in
  let st := mkAppState ∅ [] "2024-03-10" in
  let st' := toggleAttendance e "Nisa" st in
  history st' !! "2024-03-10"%string
  = Some (<[2%nat := mkAttendanceRecord "Nisa" (Some "08:05:09"%string) true]> defaultDay)
  ∧ logs st' = [mkLogEntry "k3j9x0q1z" "Nisa" masuk "08:05:09" "2024-03-10"].
Proof.
  pose proof (toggleAttendance_flips
    {| now := mkDate 19792 29109000; randomId := fun _ => "k3j9x0q1z"%string |}
    "Nisa" (mkAppState ∅ [] "2024-03-10") 2%nat
    (mkAttendanceRecord "Nisa" None false)) as H.
  simpl in H.
  destruct H as (H1 & _ & _ & _ & H2 & _).
  - reflexivity.
  - reflexivity.
  - intros j r' Hj Hn.
    do 9 (destruct j as [|j]; [vm_compute in Hj; injection Hj as <-;
                               first [reflexivity | discriminate Hn]|]).
    discriminate Hj.
  - split; [exact H1 | exact H2].
Defined.

(** Toggling keeps the names of a record set, in order. *)
Lemma toggleAttendance_names e nm st d :
  name <$> recordsOn (history (toggleAttendance e nm st)) d
  = name <$> recordsOn (history st) d.
Proof.
  rewrite toggleAttendance_history. unfold recordsOn at 1.
  destruct (decide (selectedDate st = d)) as [<-|Hne].
  - rewrite lookup_insert_eq. simpl. rewrite <- list_fmap_compose.
    apply list_fmap_ext. intros _ r _. simpl.
    by destruct (String.eqb (name r) nm).
  - by rewrite lookup_insert_ne.
Qed.

(** The records of the selected date after two toggles of the same name,
    related position by position to the records before. *)
Lemma toggleAttendance_twice_records e1 e2 nm st :
  recordsOn (history (toggleAttendance e2 nm (toggleAttendance e1 nm st))) (selectedDate st)
  = (fun r => if String.eqb (name r) nm
              then flipped (format_HHmmss (now e2)) (flipped (format_HHmmss (now e1)) r)
              else r)
    <$> recordsOn (history st) (selectedDate st).
Proof.
  rewrite (toggleAttendance_history e2), toggleAttendance_selectedDate.
  unfold recordsOn at 1. rewrite lookup_insert_eq. simpl.
  rewrite (toggleAttendance_history e1). unfold recordsOn at 1.
  rewrite lookup_insert_eq. simpl.
  rewrite <- list_fmap_compose. apply list_fmap_ext. intros _ r _. simpl.
  destruct (String.eqb (name r) nm) eqn:Hr; simpl; by rewrite Hr.
Qed.

(** C4. Toggling the same name twice in succession on the selected date
    gives back, position by position, records with the same name and the
    same presence as before; a record of that name that was absent has no
    time again; a record of another name is the record it was. *)
Theorem toggleAttendance_twice (e1 e2 : Env) (nm : string) (st : AppState) :
  let d := selectedDate st in
  let st2 := toggleAttendance e2 nm (toggleAttendance e1 nm st) in
  Forall2 (fun r r2 =>
             name r2 = name r
             ∧ isPresent r2 = isPresent r
             ∧ (name r = nm → isPresent r = false → time r2 = None)
             ∧ (name r = nm → isPresent r = true → time r2 = Some (format_HHmmss (now e2)))
             ∧ (name r ≠ nm → r2 = r))
          (recordsOn (history st) d) (recordsOn (history st2) d)
  ∧ selectedDate st2 = d.
Proof.
  intros d st2. split.
  - unfold st2, d. rewrite toggleAttendance_twice_records.
    apply Forall2_fmap_r, Forall_Forall2_diag, Forall_true. intros r.
    unfold compose. destruct (String.eqb_spec (name r) nm) as [Heq|Hne].
    + unfold flipped; simpl. rewrite negb_involutive.
      destruct (isPresent r); simpl; split_and!; try done.
    + split_and!; done.
  - unfold st2. by rewrite !toggleAttendance_selectedDate.
Qed.

(** ** The invariant of the records *)

Lemma flipped_OK timeStr r : recordOK (flipped timeStr r).
Proof. unfold recordOK, flipped. simpl. by destruct (isPresent r). Qed.

(** C5. If every stored record is absent exactly when it has no time,
    this still holds of every stored record after [toggleAttendance] and
    after [resetAttendance], whatever the answer to the confirmation. *)
Theorem storeOK_preserved (st : AppState) :
  storeOK (history st) →
  (∀ e nm, storeOK (history (toggleAttendance e nm st)))
  ∧ (∀ confirmed, storeOK (history (resetAttendance confirmed st))).
Proof.
  intros HOK. split.
  - intros e nm d records. rewrite toggleAttendance_history.
    destruct (decide (selectedDate st = d)) as [<-|Hne].
    + rewrite lookup_insert_eq. intros [= <-].
      apply Forall_fmap, Forall_forall. intros r Hr. simpl.
      destruct (String.eqb (name r) nm); [apply flipped_OK|].
      revert r Hr. apply Forall_forall. unfold recordsOn.
      destruct (history st !! selectedDate st) as [l|] eqn:Hl; simpl.
      * by eapply HOK.
      * apply defaultDay_OK.
    + rewrite lookup_insert_ne by done. apply HOK.
  - intros [|] d records; simpl; [|apply HOK].
    destruct (decide (selectedDate st = d)) as [<-|Hne].
    + rewrite lookup_insert_eq. intros [= <-]. apply defaultDay_OK.
    + rewrite lookup_insert_ne by done. apply HOK.
Qed.

Lemma storeOK_preserved_witness :
  let st := mkAppState {[ "2024-03-09"%string :=
                            [mkAttendanceRecord "Nisa" (Some "07:00:00"%string) true] ]}
                       [] "2024-03-10" in
  storeOK (history st)
  ∧ (∀ e nm, storeOK (history (toggleAttendance e nm st)))
  ∧ (∀ confirmed, storeOK (history (resetAttendance confirmed st))).
Proof.
  assert (storeOK {[ "2024-03-09"%string :=
                       [mkAttendanceRecord "Nisa" (Some "07:00:00"%string) true] ]}) as H.
  { intros d records Hd. apply lookup_singleton_Some in Hd as [_ <-].
    constructor; [|constructor]. unfold recordOK; simpl. split; discriminate. }
  split; [exact H|].
  exact (storeOK_preserved (mkAppState _ [] "2024-03-10") H).
Defined.

(** ** Resetting *)

(** C7. A confirmed [resetAttendance] stores for the selected date the
    default set (one record per roster name, in roster order, absent and
    without a time), leaves the record sets of the other dates as they
    were, and leaves the log as it was. *)
Theorem resetAttendance_confirmed (st : AppState) :
  let d := selectedDate st in
  let st' := resetAttendance true st in
  (∃ records,
      history st' !! d = Some records
      ∧ name <$> records = FRIENDS
      ∧ Forall (fun r => isPresent r = false ∧ time r = None) records)
  ∧ (∀ d', d' ≠ d → history st' !! d' = history st !! d')
  ∧ logs st' = logs st
  ∧ selectedDate st' = d.
Proof.
  intros d st'. split_and!; simpl.
  - exists defaultDay. split_and!.
    + by rewrite lookup_insert_eq.
    + reflexivity.
    + apply defaultDay_absent.
  - intros d' Hd. by rewrite lookup_insert_ne.
  - reflexivity.
  - reflexivity.
Qed.

(** ** A name that the record set does not hold *)

(** C10. If no record of the selected date's set has the toggled name,
    [toggleAttendance] shows the same records for every date as before,
    leaves the log as it was, and stores the selected date's set (the
    default set if the date had no entry) under the selected date. *)
Theorem toggleAttendance_unknown_name (e : Env) (nm : string) (st : AppState) :
  let d := selectedDate st in
  Forall (fun r => name r ≠ nm) (recordsOn (history st) d) →
  let st' := toggleAttendance e nm st in
  (∀ d', recordsOn (history st') d' = recordsOn (history st) d')
  ∧ (∀ d', d' ≠ d → history st' !! d' = history st !! d')
  ∧ logs st' = logs st
  ∧ history st' !! d = Some (recordsOn (history st) d)
  ∧ (history st !! d = None → history st' !! d = Some defaultDay).
Proof.
  intros d Hno st'. unfold st'. rewrite toggleAttendance_no_match by done.
  fold d. simpl. split_and!.
  - intros d'. unfold recordsOn at 1. destruct (decide (d = d')) as [<-|Hne].
    + by rewrite lookup_insert_eq.
    + by rewrite lookup_insert_ne.
  - intros d' Hd. by rewrite lookup_insert_ne.
  - reflexivity.
  - by rewrite lookup_insert_eq.
  - intros Hnone. rewrite lookup_insert_eq. unfold recordsOn. by rewrite Hnone.
Qed.

Lemma toggleAttendance_unknown_name_witness :
  let e := {| now := mkDate 19792 29109000; randomId := fun _ => "k3j9x0q1z"%string |} in
  let st := mkAppState ∅ [] "2024-03-10" in
  let st' := toggleAttendance e "Zed" st in
  logs st' = [] ∧ history st' !! "2024-03-10"%string = Some defaultDay.
Proof.
  pose proof (toggleAttendance_unknown_name
    {| now := mkDate 19792 29109000; randomId := fun _ => "k3j9x0q1z"%string |}
    "Zed" (mkAppState ∅ [] "2024-03-10")) as H.
  simpl in H. destruct H as (_ & _ & H1 & H2 & _).
  - unfold recordsOn. simpl. repeat constructor; discriminate.
  - split; [exact H1 | exact H2].
Defined.

(** ** The activity log *)

Lemma take_app_take {A} (n m : nat) (a b : list A) :
  (n ≤ m)%nat → take n (a ++ take m b) = take n (a ++ b).
Proof.
  revert n. induction a as [|x a IH]; intros n Hle; simpl.
  - by rewrite take_take, Nat.min_l.
  - destruct n as [|n]; [done|]. simpl. f_equal. apply IH. lia.
Qed.

(** Appending a run of entries keeps the newest 100, newest first. *)
Lemma appendAll_take entries log :
  appendAll entries log = take 100 (rev entries ++ log) ∨ (entries = [] ∧ appendAll entries log = log).
Proof.
  revert log. induction entries as [|e entries IH]; intros log; [by right|].
  left. unfold appendAll in *. simpl.
  destruct (IH (prependLog e log)) as [->|[-> ->]].
  - unfold prependLog. rewrite take_app_take by done.
    by rewrite <- app_assoc.
  - reflexivity.
Qed.

Lemma appendAll_empty entries :
  appendAll entries [] = take 100 (rev entries).
Proof.
  destruct (appendAll_take entries []) as [->|[-> ->]]; [|done].
  by rewrite app_nil_r.
Qed.

(** C6. Appending puts the new entry at the front and keeps at most 100
    entries, dropping from the tail: of two entries appended one after the
    other to any log, the later one comes first and the earlier one just
    after it; and 101 entries appended to the empty log leave exactly the
    last 100 of them, newest first, so that the first one appended is
    gone. *)
Theorem appendAll_newest_first :
  (∀ e log, prependLog e log = e :: take 99 log ∧ (length (prependLog e log) ≤ 100)%nat)
  ∧ (∀ e1 e2 log,
        appendAll [e1; e2] log !! 0%nat = Some e2
        ∧ appendAll [e1; e2] log !! 1%nat = Some e1)
  ∧ (∀ entries e1,
        length entries = 101%nat →
        entries !! 0%nat = Some e1 →
        length (appendAll entries []) = 100%nat
        ∧ appendAll entries [] = rev (drop 1 entries)
        ∧ (∀ i, appendAll entries [] !! i = Some e1 →
                ∃ j, (0 < j)%nat ∧ entries !! j = Some e1)).
Proof.
  split_and!.
  - intros e log. split; [reflexivity|].
    unfold prependLog. rewrite length_take. lia.
  - intros e1 e2 log. by split.
  - intros entries e1 Hlen H0.
    rewrite appendAll_empty.
    destruct entries as [|x entries]; [done|]. simpl in H0. injection H0 as ->.
    simpl in Hlen. injection Hlen as Hlen.
    assert (take 100 (rev (e1 :: entries)) = rev entries) as ->.
    { simpl. rewrite take_app_le by (rewrite length_rev; lia).
      apply take_ge. rewrite length_rev. lia. }
    simpl. rewrite drop_0. split_and!.
    + by rewrite length_rev.
    + reflexivity.
    + intros i Hi. apply list_elem_of_lookup_2, list_elem_of_In in Hi.
      apply in_rev, list_elem_of_In in Hi.
      apply list_elem_of_lookup in Hi as [j Hj]. exists (S j). split; [lia|done].
Qed.

Lemma appendAll_newest_first_witness :
  let entries := (fun k => mkLogEntry (pretty k) "Nisa" masuk "08:05:09" "2024-03-10")
                 <$> seq 0 101 in
  length (appendAll entries []) = 100%nat
  ∧ appendAll entries [] = rev (drop 1 entries).
Proof.
  destruct appendAll_newest_first as (_ & _ & H).
  destruct (H ((fun k => mkLogEntry (pretty k) "Nisa" masuk "08:05:09" "2024-03-10")
                 <$> seq 0 101)
              (mkLogEntry "0" "Nisa" masuk "08:05:09" "2024-03-10"))
    as (H1 & H2 & _).
  - reflexivity.
  - reflexivity.
  - split; [exact H1 | exact H2].
Defined.

(** ** Friend statistics *)

Lemma find_presentIn nm records :
  is_Some (List.find (fun r => String.eqb (name r) nm && isPresent r) records)
  ↔ presentIn nm records.
Proof.
  unfold presentIn. induction records as [|r records IH]; simpl.
  - split; [by intros [? ?]|by intros ?%Exists_nil].
  - rewrite Exists_cons.
    destruct (String.eqb_spec (name r) nm) as [Heq|Hne]; simpl.
    + destruct (isPresent r); simpl.
      * split; [by left|by eexists].
      * rewrite IH. split; [by right|]. by intros [[_ ?]|?].
    + rewrite IH. split; [by right|]. by intros [[? _]|?].
Qed.

Lemma countDay_spec nm n records :
  countDay nm n records = if decide (presentIn nm records) then S n else n.
Proof.
  unfold countDay. pose proof (find_presentIn nm records) as H.
  destruct (List.find _ records) as [r|].
  - rewrite decide_True; [done|]. apply H. by eexists.
  - rewrite decide_False; [done|]. intros Hp. apply H in Hp as [? ?]. done.
Qed.

Lemma fold_countDay nm l n :
  fold_left (countDay nm) l n = (n + length (filter (presentIn nm) l))%nat.
Proof.
  revert n. induction l as [|records l IH]; intros n; simpl; [lia|].
  rewrite IH, countDay_spec, filter_cons.
  destruct (decide (presentIn nm records)); simpl; lia.
Qed.

(** The number counted for a name is the number of date keys whose
    record set has a present record of that name. *)
Lemma total_size nm (hist : DailyData) :
  fold_left (countDay nm) (Object_values hist) 0%nat
  = size (filter (fun kv : string * list AttendanceRecord => presentIn nm kv.2) hist).
Proof.
  rewrite fold_countDay. simpl. unfold Object_values.
  induction hist as [|d records hist Hd IH] using map_ind.
  - by rewrite map_to_list_empty, map_filter_empty, map_size_empty.
  - rewrite (filter_Permutation _ _ (records :: (map_to_list hist).*2)).
    2:{ rewrite (map_to_list_insert hist d records Hd). done. }
    rewrite filter_cons, map_filter_insert.
    destruct (decide (presentIn nm records)) as [Hp|Hp].
    + rewrite decide_True by done. simpl.
      rewrite map_size_insert_None; [by rewrite IH|].
      apply map_lookup_filter_None_2. by left.
    + rewrite decide_False by done. by rewrite delete_id.
Qed.

(** ** Sorting by a descending key

    [sortBy] with the comparator [b.key - a.key]. *)

Lemma StronglySorted_weaken {A} (R1 R2 : relation A) l :
  (∀ x y, R1 x y → R2 x y) → StronglySorted R1 l → StronglySorted R2 l.
Proof.
  intros HR. induction 1 as [|x l _ IH Hx]; constructor; [done|].
  eapply Forall_impl; [exact Hx|]. apply HR.
Qed.

Section SortDescending.
Context {A : Type} (key : A → Z).

Let compareFn := fun a b : A => key b - key a.

Lemma insertBy_Permutation x l : insertBy compareFn x l ≡ₚ x :: l.
Proof.
  induction l as [|y l IH]; simpl; [done|].
  destruct (compareFn x y <=? 0); [done|].
  rewrite IH. apply Permutation_swap.
Qed.

Lemma sortBy_Permutation l : sortBy compareFn l ≡ₚ l.
Proof.
  induction l as [|x l IH]; simpl; [done|].
  unfold sortBy in *. simpl. by rewrite insertBy_Permutation, IH.
Qed.

Lemma insertBy_sorted x l :
  StronglySorted (fun a b => key b ≤ key a) l →
  StronglySorted (fun a b => key b ≤ key a) (insertBy compareFn x l).
Proof.
  induction 1 as [|y l Hl IH Hy]; simpl.
  - repeat constructor.
  - unfold compareFn at 1. destruct (Z.leb_spec (key y - key x) 0) as [Hle|Hgt].
    + constructor; [by constructor|].
      constructor; [lia|]. eapply Forall_impl; [exact Hy|]. simpl. lia.
    + constructor; [done|].
      rewrite insertBy_Permutation. constructor; [lia|done].
Qed.

Lemma sortBy_sorted l :
  StronglySorted (fun a b => key b ≤ key a) (sortBy compareFn l).
Proof.
  induction l as [|x l IH]; unfold sortBy in *; simpl; [constructor|].
  by apply insertBy_sorted.
Qed.

(** Stability: the elements of one key keep their order. *)
Lemma insertBy_stable k x l :
  filter (fun a => key a = k) (insertBy compareFn x l)
  = filter (fun a => key a = k) (x :: l).
Proof.
  induction l as [|y l IH]; simpl; [done|].
  unfold compareFn at 1. destruct (Z.leb_spec (key y - key x) 0) as [Hle|Hgt]; [done|].
  rewrite (filter_cons _ y), IH, !filter_cons.
  destruct (decide (key y = k)), (decide (key x = k)); try done. lia.
Qed.

Lemma sortBy_stable k l :
  filter (fun a => key a = k) (sortBy compareFn l)
  = filter (fun a => key a = k) l.
Proof.
  induction l as [|x l IH]; unfold sortBy in *; simpl; [done|].
  by rewrite insertBy_stable, !filter_cons, IH.
Qed.
End SortDescending.

Lemma friendStats_Permutation hist : friendStats hist ≡ₚ friendTotals hist.
Proof. exact (sortBy_Permutation (fun s => Z.of_nat (total s)) (friendTotals hist)). Qed.

Lemma friendStats_sorted hist :
  StronglySorted (fun a b => (total b ≤ total a)%nat) (friendStats hist).
Proof.
  eapply StronglySorted_weaken;
    [|exact (sortBy_sorted (fun s => Z.of_nat (total s)) (friendTotals hist))].
  intros x y. simpl. lia.
Qed.

Lemma friendStats_stable hist k :
  filter (fun s => total s = k) (friendStats hist)
  = filter (fun s => total s = k) (friendTotals hist).
Proof.
  rewrite !(list_filter_iff (fun s => total s = k)
                            (fun s => Z.of_nat (total s) = Z.of_nat k)) by (intros; lia).
  exact (sortBy_stable (fun s => Z.of_nat (total s)) (Z.of_nat k) (friendTotals hist)).
Qed.

(** Two entries of one key, one before the other after sorting, were in
    that order before. *)
Lemma friendStats_order hist l1 a l2 b l3 :
  friendStats hist = l1 ++ a :: l2 ++ b :: l3 →
  total a = total b →
  [a; b] `sublist_of` friendTotals hist.
Proof.
  intros Heq Htot.
  pose proof (friendStats_stable hist (total a)) as Hst.
  rewrite Heq in Hst.
  etrans; [|apply (sublist_filter (fun s => total s = total a))].
  rewrite <- Hst. rewrite filter_app, filter_cons, decide_True by done.
  rewrite filter_app, filter_cons, decide_True by (by rewrite Htot).
  apply sublist_inserts_l, sublist_skip, sublist_inserts_l, sublist_skip, sublist_nil_l.
Qed.

Lemma friendTotals_names hist : fs_name <$> friendTotals hist = FRIENDS.
Proof.
  reflexivity.
Qed.

(** C9. [friendStats] has one entry per roster name (9 entries); the
    total of each entry is the number of date keys of the store whose
    record set holds a present record of that name; the totals descend;
    and of two entries with the same total, the one that comes first has
    the name that comes first in the roster. *)
Theorem friendStats_spec (hist : DailyData) :
  length (friendStats hist) = length FRIENDS
  ∧ length (friendStats hist) = 9%nat
  ∧ fs_name <$> friendStats hist ≡ₚ FRIENDS
  ∧ Forall (fun s =>
              total s
              = size (filter (fun kv : string * list AttendanceRecord =>
                                presentIn (fs_name s) kv.2) hist))
           (friendStats hist)
  ∧ StronglySorted (fun a b => (total b ≤ total a)%nat) (friendStats hist)
  ∧ (∀ l1 a l2 b l3,
        friendStats hist = l1 ++ a :: l2 ++ b :: l3 →
        total a = total b →
        ∃ m1 m2 m3, FRIENDS = m1 ++ fs_name a :: m2 ++ fs_name b :: m3)
  ∧ (∀ k, fs_name <$> filter (fun s => total s = k) (friendStats hist)
          = fs_name <$> filter (fun s => total s = k) (friendTotals hist)).
Proof.
  pose proof (friendStats_Permutation hist) as Hperm.
  assert (length (friendStats hist) = 9%nat) as Hlen.
  { rewrite Hperm. unfold friendTotals. by rewrite length_map. }
  split_and!.
  - done.
  - done.
  - rewrite Hperm. by rewrite friendTotals_names.
  - rewrite Hperm. unfold friendTotals. apply Forall_fmap, Forall_true.
    intros nm. simpl. apply total_size.
  - apply friendStats_sorted.
  - intros l1 a l2 b l3 Heq Htot.
    pose proof (friendStats_order hist l1 a l2 b l3 Heq Htot) as Hsub.
    apply (fmap_sublist fs_name) in Hsub. rewrite friendTotals_names in Hsub.
    simpl in Hsub.
    apply sublist_cons_l in Hsub as (m1 & k & -> & Hsub).
    apply sublist_cons_l in Hsub as (m2 & m3 & -> & _).
    by exists m1, m2, m3.
  - intros k. by rewrite friendStats_stable.
Qed.

(** ** Calendar *)

Lemma yoe_bounds doe :
  0 ≤ doe < 146097 →
  let yoe := (doe - doe / 1460 + doe / 36524 - doe / 146096) / 365 in
  let doy := doe - (365 * yoe + yoe / 4 - yoe / 100) in
  0 ≤ yoe ≤ 399 ∧ 0 ≤ doy ≤ 365
  ∧ (doy = 365 → (yoe + 1) mod 4 = 0 ∧ ((yoe + 1) mod 100 ≠ 0 ∨ yoe + 1 = 400)).
Proof.
  intros H yoe doy. subst doy yoe.
  Z.div_mod_to_equations. lia.
Qed.

Lemma month_bounds doy :
  0 ≤ doy ≤ 365 →
  let mp := (5 * doy + 2) / 153 in
  let d := doy - (153 * mp + 2) / 5 + 1 in
  0 ≤ mp ≤ 11 ∧ 1 ≤ d ≤ 31
  ∧ (mp = 1 ∨ mp = 3 ∨ mp = 6 ∨ mp = 8 → d ≤ 30)
  ∧ (mp = 11 → d ≤ 29 ∧ (d = 29 → doy = 365))
  ∧ (mp < 10 → doy < 306) ∧ (10 ≤ mp → 306 ≤ doy).
Proof.
  intros H mp d. subst d mp.
  Z.div_mod_to_equations. lia.
Qed.

Lemma isLeapYearIndex_shift y k :
  isLeapYearIndex (y + k * 400) = isLeapYearIndex y.
Proof.
  unfold isLeapYearIndex.
  replace ((y + k * 400) mod 400) with (y mod 400) by (Z.div_mod_to_equations; lia).
  replace ((y + k * 400) mod 4) with (y mod 4) by (Z.div_mod_to_equations; lia).
  replace ((y + k * 400) mod 100) with (y mod 100) by (Z.div_mod_to_equations; lia).
  done.
Qed.

(** The civil date of a day number is a valid date, it gives the day
    number back, and it lies in the years 1 to 9999 between 0001-01-01 and
    9999-12-31. *)
Lemma civil_from_days_spec n :
  let '(y, m, d) := civil_from_days n in
  1 ≤ m ≤ 12 ∧ 1 ≤ d ≤ daysInMonth y (m - 1)
  ∧ days_from_civil y m d = n
  ∧ (-719162 ≤ n ≤ 2932896 → 1 ≤ y ≤ 9999).
Proof.
  unfold civil_from_days.
  set (z := n + 719468). set (era := z / 146097). set (doe := z mod 146097).
  assert (z = 146097 * era + doe ∧ 0 ≤ doe < 146097) as [Hz Hdoe].
  { subst era doe. Z.div_mod_to_equations. lia. }
  pose proof (yoe_bounds doe Hdoe) as Hy. simpl in Hy.
  set (yoe := (doe - doe / 1460 + doe / 36524 - doe / 146096) / 365) in *.
  set (doy := doe - (365 * yoe + yoe / 4 - yoe / 100)) in *.
  destruct Hy as (Hyoe & Hdoy & Hleap).
  pose proof (month_bounds doy Hdoy) as Hm. simpl in Hm.
  set (mp := (5 * doy + 2) / 153) in *.
  set (d := doy - (153 * mp + 2) / 5 + 1) in *.
  destruct Hm as (Hmp & Hd & H30 & Hfeb & Hlo & Hhi).
  assert ((yoe + era * 400) / 400 = era ∧ (yoe + era * 400) mod 400 = yoe) as [Hera Hyoe'].
  { Z.div_mod_to_equations. lia. }
  assert (yoe * 365 + yoe / 4 - yoe / 100 + doy = doe) as Hdoe' by (subst doy; lia).
  destruct (Z.ltb_spec mp 10) as [Hlt|Hge].
  - (* March to December *)
    destruct (Z.leb_spec (mp + 3) 2) as [?|_]; [lia|].
    split_and!; try lia.
    + unfold daysInMonth.
      destruct (Z.eqb_spec (mp + 3 - 1) 1) as [?|_]; [lia|].
      destruct (Z.eqb_spec (mp + 3 - 1) 3), (Z.eqb_spec (mp + 3 - 1) 5),
        (Z.eqb_spec (mp + 3 - 1) 8), (Z.eqb_spec (mp + 3 - 1) 10); simpl; lia.
    + unfold days_from_civil.
      destruct (Z.leb_spec (mp + 3) 2) as [?|_]; [lia|].
      destruct (Z.ltb_spec 2 (mp + 3)) as [_|?]; [|lia].
      rewrite Hera, Hyoe'. replace (mp + 3 - 3) with mp by lia.
      subst d z. lia.
    + intros Hn. subst z. specialize (Hlo Hlt).
      clearbody era doe yoe doy mp d. clear Hleap H30 Hfeb Hd Hera Hyoe'.
      Z.div_mod_to_equations. lia.
  - (* January and February *)
    destruct (Z.leb_spec (mp - 9) 2) as [_|?]; [|lia].
    split_and!; try lia.
    + unfold daysInMonth.
      destruct (Z.eqb_spec (mp - 9 - 1) 1) as [Hfe|Hja].
      * replace (yoe + era * 400 + 1) with ((yoe + 1) + era * 400) by lia.
        rewrite isLeapYearIndex_shift.
        destruct (isLeapYearIndex (yoe + 1)) eqn:Hl; [lia|].
        assert (d ≠ 29); [|lia]. intros Hd29.
        assert (mp = 11) as Hmp11 by lia.
        destruct (Hfeb Hmp11) as [_ H365]. specialize (H365 Hd29).
        destruct (Hleap H365) as [H4 H100].
        unfold isLeapYearIndex in Hl. rewrite H4 in Hl. simpl in Hl.
        destruct H100 as [H100|H400].
        -- destruct (Z.eqb_spec ((yoe + 1) mod 100) 0); [done|].
           simpl in Hl. by rewrite orb_true_r in Hl.
        -- rewrite H400 in Hl. done.
      * destruct (Z.eqb_spec (mp - 9 - 1) 3), (Z.eqb_spec (mp - 9 - 1) 5),
          (Z.eqb_spec (mp - 9 - 1) 8), (Z.eqb_spec (mp - 9 - 1) 10); simpl; lia.
    + unfold days_from_civil.
      destruct (Z.leb_spec (mp - 9) 2) as [_|?]; [|lia].
      destruct (Z.ltb_spec 2 (mp - 9)) as [?|_]; [lia|].
      replace (yoe + era * 400 + 1 - 1) with (yoe + era * 400) by lia.
      rewrite Hera, Hyoe'. replace (mp - 9 + 9) with mp by lia.
      subst d z. lia.
    + intros Hn. subst z. specialize (Hhi Hge).
      clearbody era doe yoe doy mp d. clear Hleap H30 Hfeb Hd Hera Hyoe'.
      Z.div_mod_to_equations. lia.
Qed.

(** ** Printing and reading digits *)

Lemma pretty_N_go_digit (q d : N) s :
  (d < 10)%N → (0 < 10 * q + d)%N →
  pretty_N_go (10 * q + d) s = pretty_N_go q (String (pretty_N_char d) s).
Proof.
  intros Hd Hpos. rewrite pretty_N_go_step by done.
  replace ((10 * q + d) `div` 10)%N with q by (apply N.div_unique with d; lia).
  replace ((10 * q + d) `mod` 10)%N with d by (apply N.mod_unique with q; lia).
  done.
Qed.

Lemma addLeadingZeros_2 (a b : N) :
  (a < 10)%N → (b < 10)%N →
  addLeadingZeros (Z.of_N (10 * a + b)) 2
  = String (pretty_N_char a) (String (pretty_N_char b) EmptyString).
Proof.
  intros Ha Hb. unfold addLeadingZeros.
  destruct (Z.ltb_spec (Z.of_N (10 * a + b)) 0) as [?|_]; [lia|].
  rewrite Zabs2N.id. unfold pretty at 1, pretty_N.
  destruct (decide (10 * a + b = 0)%N) as [H0|H0].
  { assert (a = 0%N ∧ b = 0%N) as [-> ->] by lia. reflexivity. }
  rewrite pretty_N_go_digit by lia.
  destruct (decide (a = 0%N)) as [->|Ha0].
  { rewrite pretty_N_go_0. reflexivity. }
  replace a with (10 * 0 + a)%N at 1 by lia.
  rewrite pretty_N_go_digit, pretty_N_go_0 by lia. reflexivity.
Qed.

Lemma addLeadingZeros_4 (a b c d : N) :
  (a < 10)%N → (b < 10)%N → (c < 10)%N → (d < 10)%N →
  addLeadingZeros (Z.of_N (10 * (10 * (10 * a + b) + c) + d)) 4
  = String (pretty_N_char a) (String (pretty_N_char b)
      (String (pretty_N_char c) (String (pretty_N_char d) EmptyString))).
Proof.
  intros Ha Hb Hc Hd. unfold addLeadingZeros.
  destruct (Z.ltb_spec (Z.of_N (10 * (10 * (10 * a + b) + c) + d)) 0) as [?|_]; [lia|].
  rewrite Zabs2N.id. unfold pretty at 1, pretty_N.
  destruct (decide (10 * (10 * (10 * a + b) + c) + d = 0)%N) as [H0|H0].
  { assert (a = 0 ∧ b = 0 ∧ c = 0 ∧ d = 0)%N as (-> & -> & -> & ->) by lia. reflexivity. }
  rewrite pretty_N_go_digit by lia.
  destruct (decide (10 * (10 * a + b) + c = 0)%N) as [H1|H1].
  { assert (a = 0 ∧ b = 0 ∧ c = 0)%N as (-> & -> & ->) by lia.
    rewrite pretty_N_go_0. reflexivity. }
  rewrite pretty_N_go_digit by lia.
  destruct (decide (10 * a + b = 0)%N) as [H2|H2].
  { assert (a = 0 ∧ b = 0)%N as (-> & ->) by lia.
    rewrite pretty_N_go_0. reflexivity. }
  rewrite pretty_N_go_digit by lia.
  destruct (decide (a = 0%N)) as [->|Ha0].
  { rewrite pretty_N_go_0. reflexivity. }
  replace a with (10 * 0 + a)%N at 1 by lia.
  rewrite pretty_N_go_digit, pretty_N_go_0 by lia. reflexivity.
Qed.

Lemma digit_cases (a : N) :
  (a < 10)%N →
  a = 0%N ∨ a = 1%N ∨ a = 2%N ∨ a = 3%N ∨ a = 4%N
  ∨ a = 5%N ∨ a = 6%N ∨ a = 7%N ∨ a = 8%N ∨ a = 9%N.
Proof. lia. Qed.

Lemma pretty_N_char_digit (a : N) :
  (a < 10)%N →
  isDigit (pretty_N_char a) = true ∧ digitValue (pretty_N_char a) = Z.of_N a.
Proof.
  intros Ha. destruct (digit_cases a Ha) as [->|[->|[->|[->|[->|[->|[->|[->|[->| ->]]]]]]]]];
    by split.
Qed.

(** The decimal digits of a number below 10000 and of one below 100. *)
Lemma digits_4 (y : Z) :
  0 ≤ y ≤ 9999 →
  ∃ a b c d : N,
    (a < 10 ∧ b < 10 ∧ c < 10 ∧ d < 10)%N
    ∧ y = Z.of_N (10 * (10 * (10 * a + b) + c) + d).
Proof.
  intros Hy.
  exists (Z.to_N (y / 1000)), (Z.to_N (y / 100 mod 10)),
         (Z.to_N (y / 10 mod 10)), (Z.to_N (y mod 10)).
  Z.div_mod_to_equations. lia.
Qed.

Lemma digits_2 (m : Z) :
  0 ≤ m ≤ 99 →
  ∃ a b : N, (a < 10 ∧ b < 10)%N ∧ m = Z.of_N (10 * a + b).
Proof.
  intros Hm. exists (Z.to_N (m / 10)), (Z.to_N (m mod 10)).
  Z.div_mod_to_equations. lia.
Qed.

Lemma daysInMonth_le_31 y m : daysInMonth y m ≤ 31.
Proof. unfold daysInMonth. repeat case_match; lia. Qed.

(** Between 0001-01-01 and 9999-12-31, [parseISO] reads what
    [format_yyyyMMdd] prints as local midnight of the same day. *)
Lemma parseISO_format (x : Date) :
  -719162 ≤ dayNumber x ≤ 2932896 →
  parseISO (format_yyyyMMdd x) = Some {| dayNumber := dayNumber x; msOfDay := 0 |}.
Proof.
  intros Hrange. unfold format_yyyyMMdd, getFullYear, getMonth, getDate.
  pose proof (civil_from_days_spec (dayNumber x)) as Hspec.
  destruct (civil_from_days (dayNumber x)) as [[y m] d]. simpl.
  destruct Hspec as (Hm & Hd & Hback & Hy). specialize (Hy Hrange).
  pose proof (daysInMonth_le_31 y (m - 1)) as H31.
  destruct (Z.ltb_spec 0 y) as [_|?]; [|lia].
  destruct (digits_4 y) as (a & b & c & e & (Ha & Hb & Hc & He) & Hyd); [lia|].
  destruct (digits_2 m) as (m1 & m2 & (Hm1 & Hm2) & Hmd); [lia|].
  destruct (digits_2 d) as (d1 & d2 & (Hd1 & Hd2) & Hdd); [lia|].
  replace (m - 1 + 1) with m by lia.
  rewrite Hyd at 1. rewrite Hmd at 1. rewrite Hdd at 1.
  rewrite addLeadingZeros_4, !addLeadingZeros_2 by done.
  cbv [String.append]. unfold parseISO. cbn [forallb].
  destruct (pretty_N_char_digit a Ha) as [-> ->].
  destruct (pretty_N_char_digit b Hb) as [-> ->].
  destruct (pretty_N_char_digit c Hc) as [-> ->].
  destruct (pretty_N_char_digit e He) as [-> ->].
  destruct (pretty_N_char_digit m1 Hm1) as [-> ->].
  destruct (pretty_N_char_digit m2 Hm2) as [-> ->].
  destruct (pretty_N_char_digit d1 Hd1) as [-> ->].
  destruct (pretty_N_char_digit d2 Hd2) as [-> ->].
  cbn [andb].
  replace (1000 * Z.of_N a + 100 * Z.of_N b + 10 * Z.of_N c + Z.of_N e) with y by lia.
  replace (10 * Z.of_N m1 + Z.of_N m2 - 1) with (m - 1) by lia.
  replace (10 * Z.of_N d1 + Z.of_N d2) with d by lia.
  assert (validateDate y (m - 1) d = true) as ->.
  { unfold validateDate. repeat (apply andb_true_intro; split); lia. }
  replace (m - 1 + 1) with m by lia. by rewrite Hback.
Qed.

(** ** Weekly statistics *)

Lemma mapM_Normal {A B} (f : A → Completion B) (g : A → B) (l : list A) :
  Forall (fun x => f x = Normal (g x)) l → mapM f l = Normal (g <$> l).
Proof.
  induction 1 as [|x l Hx _ IH]; [done|].
  change (mapM f (x :: l)) with (y ← f x; k ← mapM f l; mret (y :: k)).
  by rewrite Hx, IH.
Qed.

(** Monday of the week of a day, as [startOfWeek] finds it. *)
Lemma startOfWeek_monday (x : Date) :
  let monday := dayNumber x - (dayNumber x + 3) mod 7 in
  startOfWeek x = {| dayNumber := monday; msOfDay := 0 |}
  ∧ getDay (startOfWeek x) = 1
  ∧ monday ≤ dayNumber x ≤ monday + 6.
Proof.
  unfold startOfWeek, getDay. simpl.
  destruct (Z.ltb_spec ((dayNumber x + 4) mod 7) 1); split_and!;
    try f_equal; Z.div_mod_to_equations; lia.
Qed.

Lemma format_yyyyMMdd_day (x y : Date) :
  dayNumber x = dayNumber y → format_yyyyMMdd x = format_yyyyMMdd y.
Proof.
  intros H. unfold format_yyyyMMdd, getFullYear, getMonth, getDate. by rewrite H.
Qed.

Lemma weeklyStats_eq (clock : nat → Date) (hist : DailyData) (today : Z) :
  (∀ k, (k ≤ 7)%nat → dayNumber (clock k) = today) →
  let monday := today - (today + 3) mod 7 in
  -719162 ≤ monday → monday + 6 ≤ 2932896 →
  weeklyStats clock hist = Normal (weekEntry hist monday today <$> seq 0 7).
Proof.
  intros Hclock monday Hlo Hhi. unfold weeklyStats.
  destruct (startOfWeek_monday (clock 0%nat)) as (Hstart & _ & _).
  rewrite (Hclock 0%nat) in Hstart by lia. fold monday in Hstart. rewrite Hstart.
  rewrite (mapM_Normal _ (fun p => weekEntry hist monday today p.1)).
  - reflexivity.
  - apply Forall_lookup. intros i [k date] Hi.
    rewrite list_lookup_imap, list_lookup_fmap in Hi.
    destruct (seq 0 7 !! i) as [j|] eqn:Hj; [|done]. simpl in Hi.
    apply lookup_seq in Hj as [-> Hlt]. simpl in Hi. injection Hi as <- <-.
    assert (format_yyyyMMdd (addDays {| dayNumber := monday; msOfDay := 0 |} (Z.of_nat i))
            = format_yyyyMMdd {| dayNumber := monday + Z.of_nat i; msOfDay := 0 |}) as ->
      by (by apply format_yyyyMMdd_day).
    rewrite parseISO_format by (simpl; lia).
    unfold format_EEE, weekEntry. simpl. unfold mbind, Completion_bind, mret, Completion_ret.
    do 2 f_equal. rewrite (Hclock (S i)) by lia.
    apply bool_decide_ext. done.
Qed.

(** ** JSON text: the recursion budget is never used up *)

Lemma skipWhitespace_length s :
  (String.length (skipWhitespace s) ≤ String.length s)%nat.
Proof.
  induction s as [|c s IH]; simpl; [done|].
  destruct (isWhitespace c); simpl; lia.
Qed.

Lemma dropPrefix_length p s r :
  dropPrefix p s = Some r →
  (String.length r + String.length p = String.length s)%nat.
Proof.
  revert s. induction p as [|a p IH]; intros s; simpl.
  - intros [= ->]. lia.
  - destruct s as [|c s]; [done|]. destruct (Ascii.eqb a c); [|done].
    intros H%IH. simpl. lia.
Qed.

Lemma spanDigits_length s :
  (String.length (spanDigits s).2 ≤ String.length s)%nat.
Proof.
  induction s as [|c s IH]; simpl; [done|].
  destruct (isDigit c); simpl; [|lia].
  destruct (spanDigits s) as [ds r]. simpl in *. lia.
Qed.

Lemma consUnit_Got u p us r :
  consUnit u p = Got us r → ∃ us', p = Got us' r.
Proof. destruct p; simpl; [|done..]. intros [= <- <-]. by eexists. Qed.

Lemma consUnit_fuel u p : consUnit u p = OutOfFuel → p = OutOfFuel.
Proof. by destruct p. Qed.

Lemma parseChars_spec s :
  parseChars s ≠ OutOfFuel
  ∧ ∀ us r, parseChars s = Got us r → (String.length r < String.length s)%nat.
Proof.
  remember (String.length s) as n eqn:Hn. revert s Hn.
  induction (lt_wf n) as [n _ IH']. intros s ->.
  assert (∀ s', (String.length s' < String.length s)%nat →
            parseChars s' ≠ OutOfFuel
            ∧ ∀ us r, parseChars s' = Got us r →
                      (String.length r < String.length s')%nat) as IH.
  { intros s' Hlt. by eapply IH'. }
  clear IH'.
  assert (∀ s' u, (String.length s' < String.length s)%nat →
            consUnit u (parseChars s') ≠ OutOfFuel
            ∧ ∀ us r, consUnit u (parseChars s') = Got us r →
                      (String.length r < String.length s)%nat) as Hrec.
  { intros s' u Hlt. destruct (IH s' Hlt) as [Hf Hg]. split.
    - by intros ?%consUnit_fuel.
    - intros us r [us' H]%consUnit_Got. specialize (Hg _ _ H). lia. }
  destruct s as [|c s]; simpl; [done|].
  destruct (Ascii.eqb c "034").
  { split; [done|]. intros us r [= <- <-]. lia. }
  destruct (Ascii.eqb c "\").
  - destruct s as [|e s]; [done|].
    repeat (match goal with
            | |- context [if Ascii.eqb e ?x then _ else _] =>
                destruct (Ascii.eqb e x); [apply Hrec; simpl; lia|]
            end).
    destruct (Ascii.eqb e "u"); [|done].
    destruct s as [|h1 [|h2 [|h3 [|h4 s]]]]; try done.
    destruct (hexValue h1), (hexValue h2), (hexValue h3), (hexValue h4); try done.
    apply Hrec. simpl. lia.
  - destruct (N_of_ascii c <? 32)%N; [done|]. apply Hrec. simpl. lia.
Qed.

Lemma parseInt_spec s :
  parseInt s ≠ OutOfFuel
  ∧ ∀ n r, parseInt s = Got n r → (String.length r < String.length s)%nat.
Proof.
  destruct s as [|c s]; simpl; [done|].
  destruct (Ascii.eqb c "0").
  { split; [done|]. intros n r [= <- <-]. lia. }
  destruct (isDigit c); [|done].
  pose proof (spanDigits_length s) as H. destruct (spanDigits s) as [ds r'].
  split; [done|]. intros n r [= <- <-]. simpl in H. lia.
Qed.

Lemma parseFrac_spec s :
  parseFrac s ≠ OutOfFuel
  ∧ ∀ n r, parseFrac s = Got n r → (String.length r ≤ String.length s)%nat.
Proof.
  unfold parseFrac. destruct (dropPrefix "." s) as [r0|] eqn:Hd.
  - apply dropPrefix_length in Hd. simpl in Hd.
    pose proof (spanDigits_length r0) as H. destruct (spanDigits r0) as [[|d ds] r'].
    + done.
    + split; [done|]. intros n r [= <- <-]. simpl in H. lia.
  - split; [done|]. intros n r [= <- <-]. lia.
Qed.

Lemma parseExp_spec s :
  parseExp s ≠ OutOfFuel
  ∧ ∀ n r, parseExp s = Got n r → (String.length r ≤ String.length s)%nat.
Proof.
  unfold parseExp. destruct s as [|c s]; [split; [done|]; by intros n r [= <- <-]|].
  destruct (Ascii.eqb c "e" || Ascii.eqb c "E")%bool.
  - destruct (dropPrefix "+" s) as [r1|] eqn:Hp.
    { apply dropPrefix_length in Hp. simpl in Hp.
      pose proof (spanDigits_length r1) as H.
      destruct (spanDigits r1) as [[|d ds] r2]; [done|].
      split; [done|]. intros n r [= _ <-]. simpl in *. lia. }
    destruct (dropPrefix "-" s) as [r1|] eqn:Hm.
    { apply dropPrefix_length in Hm. simpl in Hm.
      pose proof (spanDigits_length r1) as H.
      destruct (spanDigits r1) as [[|d ds] r2]; [done|].
      split; [done|]. intros n r [= _ <-]. simpl in *. lia. }
    pose proof (spanDigits_length s) as H.
    destruct (spanDigits s) as [[|d ds] r2]; [done|].
    split; [done|]. intros n r [= _ <-]. simpl in *. lia.
  - split; [done|]. by intros n r [= <- <-].
Qed.

Lemma parseNumber_spec s :
  parseNumber s ≠ OutOfFuel
  ∧ ∀ n r, parseNumber s = Got n r → (String.length r < String.length s)%nat.
Proof.
  unfold parseNumber.
  assert (∀ sign s1, (String.length s1 ≤ String.length s)%nat →
    match parseInt s1 with
    | Got i s2 =>
        match parseFrac s2 with
        | Got f s3 =>
            match parseExp s3 with
            | Got x s4 => Got (sign +:+ i +:+ f +:+ x) s4
            | Bad => Bad
            | OutOfFuel => OutOfFuel
            end
        | Bad => Bad
        | OutOfFuel => OutOfFuel
        end
    | Bad => Bad
    | OutOfFuel => OutOfFuel
    end ≠ OutOfFuel
    ∧ ∀ n r,
      match parseInt s1 with
      | Got i s2 =>
          match parseFrac s2 with
          | Got f s3 =>
              match parseExp s3 with
              | Got x s4 => Got (sign +:+ i +:+ f +:+ x) s4
              | Bad => Bad
              | OutOfFuel => OutOfFuel
              end
          | Bad => Bad
          | OutOfFuel => OutOfFuel
          end
      | Bad => Bad
      | OutOfFuel => OutOfFuel
      end = Got n r → (String.length r < String.length s)%nat) as Hbody.
  { intros sign s1 Hs1.
    destruct (parseInt_spec s1) as [Hi1 Hi2].
    destruct (parseInt s1) as [i s2| |]; [|done..]. specialize (Hi2 _ _ eq_refl).
    destruct (parseFrac_spec s2) as [Hf1 Hf2].
    destruct (parseFrac s2) as [f s3| |]; [|done..]. specialize (Hf2 _ _ eq_refl).
    destruct (parseExp_spec s3) as [He1 He2].
    destruct (parseExp s3) as [x s4| |]; [|done..]. specialize (He2 _ _ eq_refl).
    split; [done|]. intros n r [= _ <-]. lia. }
  destruct (dropPrefix "-" s) as [r0|] eqn:Hd.
  - apply dropPrefix_length in Hd. simpl in Hd. apply Hbody. lia.
  - apply Hbody. lia.
Qed.

Lemma mapParsed_Got {A B} (f : A → B) p b r :
  mapParsed f p = Got b r → ∃ a, p = Got a r.
Proof. destruct p; simpl; [|done..]. intros [= <- <-]. by eexists. Qed.

Lemma mapParsed_fuel {A B} (f : A → B) p : mapParsed f p = OutOfFuel → p = OutOfFuel.
Proof. by destruct p. Qed.

Lemma parseValue_S fuel s :
  parseValue (S fuel) s
  = match skipWhitespace s with
    | EmptyString => Bad
    | String c r =>
        if Ascii.eqb c "n" then
          match dropPrefix "ull" r with Some r' => Got JNull r' | None => Bad end
        else if Ascii.eqb c "t" then
          match dropPrefix "rue" r with Some r' => Got (JBool true) r' | None => Bad end
        else if Ascii.eqb c "f" then
          match dropPrefix "alse" r with Some r' => Got (JBool false) r' | None => Bad end
        else if Ascii.eqb c "034" then mapParsed JString (parseChars r)
        else if Ascii.eqb c "[" then
          match dropPrefix "]" (skipWhitespace r) with
          | Some r' => Got (JArray []) r'
          | None => mapParsed JArray (parseElements fuel r)
          end
        else if Ascii.eqb c "{" then
          match dropPrefix "}" (skipWhitespace r) with
          | Some r' => Got (JObject []) r'
          | None => mapParsed JObject (parseMembers fuel r)
          end
        else mapParsed JNumber (parseNumber (String c r))
    end.
Proof. reflexivity. Qed.

Lemma parseElements_S fuel s :
  parseElements (S fuel) s
  = match parseValue fuel s with
    | Got v r =>
        match skipWhitespace r with
        | String c r' =>
            if Ascii.eqb c "," then mapParsed (cons v) (parseElements fuel r')
            else if Ascii.eqb c "]" then Got [v] r'
            else Bad
        | EmptyString => Bad
        end
    | Bad => Bad
    | OutOfFuel => OutOfFuel
    end.
Proof. reflexivity. Qed.

Lemma parseMembers_S fuel s :
  parseMembers (S fuel) s
  = match dropPrefix (String "034" EmptyString) (skipWhitespace s) with
    | Some r =>
        match parseChars r with
        | Got k r1 =>
            match dropPrefix ":" (skipWhitespace r1) with
            | Some r2 =>
                match parseValue fuel r2 with
                | Got v r3 =>
                    match skipWhitespace r3 with
                    | String c r4 =>
                        if Ascii.eqb c "," then
                          mapParsed (cons (k, v)) (parseMembers fuel r4)
                        else if Ascii.eqb c "}" then Got [(k, v)] r4
                        else Bad
                    | EmptyString => Bad
                    end
                | Bad => Bad
                | OutOfFuel => OutOfFuel
                end
            | None => Bad
            end
        | Bad => Bad
        | OutOfFuel => OutOfFuel
        end
    | None => Bad
    end.
Proof. reflexivity. Qed.

(** With [fuel], a parsing function stops short only on a text too long
    for it, and what it accepts is a proper prefix of the text. *)
Lemma parse_fuel fuel :
  ∀ s,
    ((parseValue fuel s = OutOfFuel → (fuel ≤ 2 * String.length s)%nat)
     ∧ ∀ v r, parseValue fuel s = Got v r → (String.length r < String.length s)%nat)
    ∧ ((parseElements fuel s = OutOfFuel → (fuel ≤ 2 * String.length s + 1)%nat)
       ∧ ∀ v r, parseElements fuel s = Got v r → (String.length r < String.length s)%nat)
    ∧ ((parseMembers fuel s = OutOfFuel → (fuel ≤ 2 * String.length s + 1)%nat)
       ∧ ∀ v r, parseMembers fuel s = Got v r → (String.length r < String.length s)%nat).
Proof.
  induction fuel as [|fuel IH]; intros s.
  { simpl. split_and!; try done; lia. }
  split_and!.
  - (* parseValue, out of fuel *)
    rewrite parseValue_S. pose proof (skipWhitespace_length s) as Hws.
    destruct (skipWhitespace s) as [|c r]; [done|]. simpl in Hws.
    destruct (Ascii.eqb c "n"); [by destruct (dropPrefix _ r)|].
    destruct (Ascii.eqb c "t"); [by destruct (dropPrefix _ r)|].
    destruct (Ascii.eqb c "f"); [by destruct (dropPrefix _ r)|].
    destruct (Ascii.eqb c "034").
    { intros H%mapParsed_fuel. by destruct (parseChars_spec r). }
    destruct (Ascii.eqb c "[").
    { destruct (dropPrefix _ _); [done|]. intros H%mapParsed_fuel.
      destruct (IH r) as (_ & [He _] & _). specialize (He H). lia. }
    destruct (Ascii.eqb c "{").
    { destruct (dropPrefix _ _); [done|]. intros H%mapParsed_fuel.
      destruct (IH r) as (_ & _ & [Hm _]). specialize (Hm H). lia. }
    intros H%mapParsed_fuel. by destruct (parseNumber_spec (String c r)).
  - (* parseValue, accepted *)
    rewrite parseValue_S. pose proof (skipWhitespace_length s) as Hws.
    destruct (skipWhitespace s) as [|c r]; [done|]. simpl in Hws.
    intros v r'.
    destruct (Ascii.eqb c "n"); [destruct (dropPrefix _ r) eqn:Hd;
      [intros [= _ <-]; apply dropPrefix_length in Hd; lia|done]|].
    destruct (Ascii.eqb c "t"); [destruct (dropPrefix _ r) eqn:Hd;
      [intros [= _ <-]; apply dropPrefix_length in Hd; lia|done]|].
    destruct (Ascii.eqb c "f"); [destruct (dropPrefix _ r) eqn:Hd;
      [intros [= _ <-]; apply dropPrefix_length in Hd; lia|done]|].
    destruct (Ascii.eqb c "034").
    { intros [us H]%mapParsed_Got. destruct (parseChars_spec r) as [_ Hc].
      specialize (Hc _ _ H). lia. }
    destruct (Ascii.eqb c "[").
    { destruct (dropPrefix _ _) as [r''|] eqn:Hd.
      - intros [= _ <-]. apply dropPrefix_length in Hd.
        pose proof (skipWhitespace_length r). lia.
      - intros [vs H]%mapParsed_Got. destruct (IH r) as (_ & [_ He] & _).
        specialize (He _ _ H). lia. }
    destruct (Ascii.eqb c "{").
    { destruct (dropPrefix _ _) as [r''|] eqn:Hd.
      - intros [= _ <-]. apply dropPrefix_length in Hd.
        pose proof (skipWhitespace_length r). lia.
      - intros [vs H]%mapParsed_Got. destruct (IH r) as (_ & _ & [_ Hm]).
        specialize (Hm _ _ H). lia. }
    intros [n H]%mapParsed_Got. destruct (parseNumber_spec (String c r)) as [_ Hn].
    specialize (Hn _ _ H). simpl in Hn. lia.
  - (* parseElements, out of fuel *)
    rewrite parseElements_S. destruct (IH s) as ([Hv1 Hv2] & _).
    destruct (parseValue fuel s) as [v r| |]; [|done|intros _; specialize (Hv1 eq_refl); lia].
    specialize (Hv2 _ _ eq_refl). pose proof (skipWhitespace_length r) as Hws.
    destruct (skipWhitespace r) as [|c r']; [done|]. simpl in Hws.
    destruct (Ascii.eqb c ",").
    { intros H%mapParsed_fuel. destruct (IH r') as (_ & [He _] & _).
      specialize (He H). lia. }
    by destruct (Ascii.eqb c "]").
  - (* parseElements, accepted *)
    rewrite parseElements_S. destruct (IH s) as ([_ Hv2] & _).
    destruct (parseValue fuel s) as [v r| |]; [|done..].
    specialize (Hv2 _ _ eq_refl). pose proof (skipWhitespace_length r) as Hws.
    destruct (skipWhitespace r) as [|c r']; [done|]. simpl in Hws.
    intros vs r''. destruct (Ascii.eqb c ",").
    { intros [vs' H]%mapParsed_Got. destruct (IH r') as (_ & [_ He] & _).
      specialize (He _ _ H). lia. }
    destruct (Ascii.eqb c "]"); [|done]. intros [= _ <-]. lia.
  - (* parseMembers, out of fuel *)
    rewrite parseMembers_S. pose proof (skipWhitespace_length s) as Hws.
    destruct (dropPrefix _ (skipWhitespace s)) as [r|] eqn:Hq; [|done].
    apply dropPrefix_length in Hq. simpl in Hq.
    destruct (parseChars_spec r) as [Hc1 Hc2].
    destruct (parseChars r) as [k r1| |]; [|done..]. specialize (Hc2 _ _ eq_refl).
    pose proof (skipWhitespace_length r1) as Hws1.
    destruct (dropPrefix _ (skipWhitespace r1)) as [r2|] eqn:Hcol; [|done].
    apply dropPrefix_length in Hcol. simpl in Hcol.
    destruct (IH r2) as ([Hv1 Hv2] & _).
    destruct (parseValue fuel r2) as [v r3| |]; [|done|intros _; specialize (Hv1 eq_refl); lia].
    specialize (Hv2 _ _ eq_refl). pose proof (skipWhitespace_length r3) as Hws3.
    destruct (skipWhitespace r3) as [|c r4]; [done|]. simpl in Hws3.
    destruct (Ascii.eqb c ",").
    { intros H%mapParsed_fuel. destruct (IH r4) as (_ & _ & [Hm _]).
      specialize (Hm H). lia. }
    by destruct (Ascii.eqb c "}").
  - (* parseMembers, accepted *)
    rewrite parseMembers_S. pose proof (skipWhitespace_length s) as Hws.
    destruct (dropPrefix _ (skipWhitespace s)) as [r|] eqn:Hq; [|done].
    apply dropPrefix_length in Hq. simpl in Hq.
    destruct (parseChars_spec r) as [_ Hc2].
    destruct (parseChars r) as [k r1| |]; [|done..]. specialize (Hc2 _ _ eq_refl).
    pose proof (skipWhitespace_length r1) as Hws1.
    destruct (dropPrefix _ (skipWhitespace r1)) as [r2|] eqn:Hcol; [|done].
    apply dropPrefix_length in Hcol. simpl in Hcol.
    destruct (IH r2) as ([_ Hv2] & _).
    destruct (parseValue fuel r2) as [v r3| |]; [|done..].
    specialize (Hv2 _ _ eq_refl). pose proof (skipWhitespace_length r3) as Hws3.
    destruct (skipWhitespace r3) as [|c r4]; [done|]. simpl in Hws3.
    intros ms r5. destruct (Ascii.eqb c ",").
    { intros [ms' H]%mapParsed_Got. destruct (IH r4) as (_ & _ & [_ Hm]).
      specialize (Hm _ _ H). lia. }
    destruct (Ascii.eqb c "}"); [|done]. intros [= _ <-]. lia.
Qed.

(** [JSON_parse] gives its budget enough fuel: the parser never stops for
    lack of it. *)
Lemma JSON_parse_fuel text : parseValue (parseFuel text) text ≠ OutOfFuel.
Proof.
  intros H. destruct (parse_fuel (parseFuel text) text) as ([Hv _] & _).
  specialize (Hv H). unfold parseFuel in Hv. lia.
Qed.

(** C8. When the clock reads the same calendar day [today] throughout the
    computation, and the week of that day lies between 0001-01-01 and
    9999-12-31, [weeklyStats] returns 7 entries: the [i]-th is for the day
    [i] days after the Monday of the week holding [today] (so the days run
    from Monday to Sunday); a date with no entry in the store counts zero
    and a stored date counts its present records; and exactly one entry
    is marked as today, the one whose date is today's. *)
Theorem weeklyStats_week (clock : nat → Date) (hist : DailyData) (today : Z) :
  (∀ k, (k ≤ 7)%nat → dayNumber (clock k) = today) →
  let monday := today - (today + 3) mod 7 in
  -719162 ≤ monday → monday + 6 ≤ 2932896 →
  ∃ stats,
    weeklyStats clock hist = Normal stats
    ∧ length stats = 7%nat
    ∧ monday ≤ today ≤ monday + 6
    ∧ (∀ i s, stats !! i = Some s →
         let day := {| dayNumber := monday + Z.of_nat i; msOfDay := 0 |} in
         fullDate s = format_yyyyMMdd day
         ∧ getDay day = (1 + Z.of_nat i) mod 7
         ∧ (hist !! fullDate s = None → count s = 0%nat)
         ∧ (∀ records, hist !! fullDate s = Some records →
                       count s = length (filter (fun r => isPresent r = true) records))
         ∧ (isToday s = true ↔ monday + Z.of_nat i = today)
         ∧ (isToday s = true ↔ fullDate s = format_yyyyMMdd (clock 0%nat)))
    ∧ (∃ i s, stats !! i = Some s ∧ isToday s = true
              ∧ ∀ j s', stats !! j = Some s' → isToday s' = true → j = i).
Proof.
  intros Hclock monday Hlo Hhi.
  exists (weekEntry hist monday today <$> seq 0 7).
  assert (monday ≤ today ≤ monday + 6) as Hweek.
  { subst monday. Z.div_mod_to_equations. lia. }
  split_and!.
  - by apply weeklyStats_eq.
  - reflexivity.
  - lia.
  - lia.
  - intros i s Hs day. rewrite list_lookup_fmap in Hs.
    destruct (seq 0 7 !! i) as [k|] eqn:Hk; [|done].
    apply lookup_seq in Hk as [-> Hlt]. simpl in Hs. injection Hs as <-.
    unfold weekEntry. simpl. fold day. split_and!.
    + reflexivity.
    + unfold getDay. subst day monday. simpl. Z.div_mod_to_equations. lia.
    + by intros ->.
    + by intros records ->.
    + apply bool_decide_eq_true.
    + rewrite bool_decide_eq_true. split.
      * intros Heq. apply format_yyyyMMdd_day. simpl. rewrite Hclock by lia. done.
      * intros Heq. apply (f_equal parseISO) in Heq.
        rewrite !parseISO_format in Heq by (subst day; simpl; rewrite ?Hclock; lia).
        injection Heq as Heq. subst day. simpl in Heq. rewrite Hclock in Heq by lia. done.
  - exists (Z.to_nat (today - monday)), (weekEntry hist monday today (Z.to_nat (today - monday))).
    split_and!.
    + rewrite list_lookup_fmap, lookup_seq_lt by lia. done.
    + unfold weekEntry. simpl. apply bool_decide_eq_true. lia.
    + intros j s' Hs' Ht. rewrite list_lookup_fmap in Hs'.
      destruct (seq 0 7 !! j) as [k|] eqn:Hk; [|done].
      apply lookup_seq in Hk as [-> Hlt]. simpl in Hs'. injection Hs' as <-.
      unfold weekEntry in Ht. simpl in Ht. apply bool_decide_eq_true in Ht. lia.
Qed.

Lemma weeklyStats_week_witness :
  let clock := fun _ : nat => {| dayNumber := 19792; msOfDay := 29109000 |} in
  ∃ stats,
    weeklyStats clock ∅ = Normal stats
    ∧ length stats = 7%nat
    ∧ fullDate <$> stats
      = [ "2024-03-04"; "2024-03-05"; "2024-03-06"; "2024-03-07";
          "2024-03-08"; "2024-03-09"; "2024-03-10" ]%string
    ∧ isToday <$> stats = [false; false; false; false; false; false; true].
Proof.
  destruct (weeklyStats_week
              (fun _ : nat => {| dayNumber := 19792; msOfDay := 29109000 |}) ∅ 19792)
    as (stats & Heq & Hlen & _).
  - intros k _. reflexivity.
  - vm_compute. discriminate.
  - vm_compute. discriminate.
  - exists stats. split; [exact Heq|]. split; [exact Hlen|].
    vm_compute in Heq. injection Heq as <-. split; reflexivity.
Defined.

(** ** Loading the persisted state *)

(** C1, as the code has it.  A key that is absent, or whose stored string
    is empty, gives the empty store and the empty log.  Any other stored
    string is given to [JSON.parse] and its outcome is the outcome of the
    initialiser: a string that is not well-formed JSON makes the
    initialiser throw a [SyntaxError], and then the first render throws
    it too. *)
Theorem startup_load (storage : gmap string string) :
  let savedHistory := storage !! "attendance_history_v2"%string in
  let savedLogs := storage !! "attendance_logs_v2"%string in
  (savedHistory = None ∨ savedHistory = Some EmptyString →
   initHistory storage = Normal (JObject []))
  ∧ (savedLogs = None ∨ savedLogs = Some EmptyString →
     initLogs storage = Normal (JArray []))
  ∧ (∀ s, savedHistory = Some s → s ≠ EmptyString → initHistory storage = JSON_parse s)
  ∧ (∀ s, savedLogs = Some s → s ≠ EmptyString → initLogs storage = JSON_parse s)
  ∧ (∀ s, savedHistory = Some s → s ≠ EmptyString → JSON_parse s = Throw SyntaxError →
          startup storage = Throw SyntaxError)
  ∧ (∀ s h, savedLogs = Some s → s ≠ EmptyString → JSON_parse s = Throw SyntaxError →
            initHistory storage = Normal h →
            startup storage = Throw SyntaxError)
  ∧ ((savedHistory = None ∨ savedHistory = Some EmptyString) →
     (savedLogs = None ∨ savedLogs = Some EmptyString) →
     startup storage = Normal (JObject [], JArray [])).
Proof.
  intros savedHistory savedLogs.
  assert (savedHistory = None ∨ savedHistory = Some EmptyString →
          initHistory storage = Normal (JObject [])) as Hh0.
  { unfold initHistory, getItem. fold savedHistory. by intros [-> | ->]. }
  assert (savedLogs = None ∨ savedLogs = Some EmptyString →
          initLogs storage = Normal (JArray [])) as Hl0.
  { unfold initLogs, getItem. fold savedLogs. by intros [-> | ->]. }
  assert (∀ s, savedHistory = Some s → s ≠ EmptyString →
               initHistory storage = JSON_parse s) as Hh1.
  { intros s Hs Hne. unfold initHistory, getItem. fold savedHistory. rewrite Hs.
    by destruct s. }
  assert (∀ s, savedLogs = Some s → s ≠ EmptyString →
               initLogs storage = JSON_parse s) as Hl1.
  { intros s Hs Hne. unfold initLogs, getItem. fold savedLogs. rewrite Hs.
    by destruct s. }
  split_and!; try done.
  - intros s Hs Hne Hbad. unfold startup. by rewrite (Hh1 s), Hbad.
  - intros s h Hs Hne Hbad Hh. unfold startup. by rewrite Hh, (Hl1 s), Hbad.
  - intros Hh Hl. unfold startup. by rewrite Hh0, Hl0.
Qed.

Lemma startup_load_witness :
  let storage : gmap string string := {[ "attendance_history_v2"%string := "{"%string ]} in
  initHistory storage = JSON_parse "{"
  ∧ startup storage = Throw SyntaxError
  ∧ initLogs storage = Normal (JArray []).
Proof.
  destruct (startup_load {[ "attendance_history_v2"%string := "{"%string ]})
    as (_ & Hl0 & Hh1 & _ & Hthrow & _).
  split_and!.
  - apply (Hh1 "{"%string); [reflexivity|discriminate].
  - apply (Hthrow "{"%string); [reflexivity|discriminate|reflexivity].
  - apply Hl0. left. reflexivity.
Defined.

(** C1 as stated fails: a stored string that is not well-formed JSON
    (here an opening brace, and an opening bracket for the log) does not
    give the empty store or log; the initialiser throws and so does the
    first render. *)
Lemma startup_malformed_throws :
  let badHistory : gmap string string := {[ "attendance_history_v2"%string := "{"%string ]} in
  let badLogs : gmap string string := {[ "attendance_logs_v2"%string := "["%string ]} in
  JSON_parse "{" = Throw SyntaxError
  ∧ parseValue (parseFuel "{") "{" = Bad
  ∧ initHistory badHistory = Throw SyntaxError
  ∧ initHistory badHistory ≠ Normal (JObject [])
  ∧ startup badHistory = Throw SyntaxError
  ∧ JSON_parse "[" = Throw SyntaxError
  ∧ initLogs badLogs = Throw SyntaxError
  ∧ initLogs badLogs ≠ Normal (JArray [])
  ∧ startup badLogs = Throw SyntaxError.
Proof. vm_compute. split_and!; (reflexivity || discriminate). Qed.

(** ** Instances of the statements above *)

Lemma toggleAttendance_twice_witness :
  let e1 := {| now := mkDate 19792 29109000; randomId := fun _ => "k3j9x0q1z"%string |} in
  let e2 := {| now := mkDate 19792 29110000; randomId := fun _ => "p0o9i8u7y"%string |} in
  let st := mkAppState ∅ [] "2024-03-10" in
  let st2 := toggleAttendance e2 "Nisa" (toggleAttendance e1 "Nisa" st) in
  Forall2 (fun r r2 =>
             name r2 = name r
             ∧ isPresent r2 = isPresent r
             ∧ (name r = "Nisa"%string → isPresent r = false → time r2 = None)
             ∧ (name r = "Nisa"%string → isPresent r = true
                → time r2 = Some (format_HHmmss (now e2)))
             ∧ (name r ≠ "Nisa"%string → r2 = r))
          (recordsOn (history st) "2024-03-10") (recordsOn (history st2) "2024-03-10").
Proof.
  exact (proj1 (toggleAttendance_twice
    {| now := mkDate 19792 29109000; randomId := fun _ => "k3j9x0q1z"%string |}
    {| now := mkDate 19792 29110000; randomId := fun _ => "p0o9i8u7y"%string |}
    "Nisa" (mkAppState ∅ [] "2024-03-10"))).
Defined.

Lemma resetAttendance_confirmed_witness :
  let st := mkAppState {[ "2024-03-09"%string :=
                            [mkAttendanceRecord "Nisa" (Some "07:00:00"%string) true] ]}
                       [mkLogEntry "k3j9x0q1z" "Nisa" masuk "07:00:00" "2024-03-09"]
                       "2024-03-10" in
  let st' := resetAttendance true st in
  history st' !! "2024-03-09"%string = history st !! "2024-03-09"%string
  ∧ logs st' = logs st.
Proof.
  destruct (resetAttendance_confirmed
    (mkAppState {[ "2024-03-09"%string :=
                     [mkAttendanceRecord "Nisa" (Some "07:00:00"%string) true] ]}
                [mkLogEntry "k3j9x0q1z" "Nisa" masuk "07:00:00" "2024-03-09"]
                "2024-03-10")) as (_ & Hother & Hlogs & _).
  split; [|exact Hlogs].
  apply Hother. discriminate.
Defined.

Lemma friendStats_spec_witness :
  let hist : DailyData :=
    {[ "2024-03-10"%string := [mkAttendanceRecord "Nisa" None true;
                               mkAttendanceRecord "Caca" None true] ]} in
  ∃ m1 m2 m3, FRIENDS = m1 ++ "Nisa"%string :: m2 ++ "Caca"%string :: m3.
Proof.
  destruct (friendStats_spec
    {[ "2024-03-10"%string := [mkAttendanceRecord "Nisa" None true;
                               mkAttendanceRecord "Caca" None true] ]})
    as (_ & _ & _ & _ & _ & Hstable & _).
  apply (Hstable [] (mkFriendStat "Nisa" 1) [] (mkFriendStat "Caca" 1)
                 ((fun n => mkFriendStat n 0)
                  <$> ["Yolanda"; "Fadhil"; "Aurel"; "Jihan"; "Alisa"; "Opang"; "Clara"]%string)).
  - vm_compute. reflexivity.
  - reflexivity.
Defined.

(** * Further properties of the component *)

(** ** Invariants of the reachable states *)

Lemma FRIENDS_NoDup : NoDup FRIENDS.
Proof. apply (bool_decide_unpack _). vm_compute. exact I. Qed.

Lemma recordsOn_rosterShaped hist d :
  rosterShaped hist → name <$> recordsOn hist d = FRIENDS.
Proof.
  intros Hshape. unfold recordsOn.
  destruct (hist !! d) as [records|] eqn:Hd; simpl; [by eapply Hshape|reflexivity].
Qed.

Lemma toggleAttendance_rosterShaped e nm st :
  rosterShaped (history st) → rosterShaped (history (toggleAttendance e nm st)).
Proof.
  intros Hshape d records Hd.
  pose proof (toggleAttendance_names e nm st d) as Hn.
  unfold recordsOn at 1 in Hn. rewrite Hd in Hn. simpl in Hn.
  rewrite Hn. by apply recordsOn_rosterShaped.
Qed.

Lemma resetAttendance_rosterShaped confirmed st :
  rosterShaped (history st) → rosterShaped (history (resetAttendance confirmed st)).
Proof.
  intros Hshape. destruct confirmed; simpl; [|done].
  intros d records. destruct (decide (selectedDate st = d)) as [<-|Hne].
  - rewrite lookup_insert_eq. by intros [= <-].
  - rewrite lookup_insert_ne by done. apply Hshape.
Qed.

(** The log after a toggle is no longer than 100 entries, or than it was. *)
Lemma run_logs_length e selDate nm l fx :
  (length (fx_logs (mapM (toggleRecord e selDate nm (format_HHmmss (now e))) l fx).2)
   ≤ Nat.max 100 (length (fx_logs fx)))%nat.
Proof.
  revert fx. induction l as [|r l IH]; intros fx; [simpl; lia|].
  rewrite run_cons.
  destruct (decide (name r = nm)) as [Heq|Hne].
  - rewrite toggleRecord_match by done.
    match goal with |- context [mapM ?f l ?fx1] =>
      specialize (IH fx1); destruct (mapM f l fx1) as [l' fx2] end.
    cbn [snd fx_logs] in *. unfold prependLog in IH. rewrite length_take in IH.
    cbn [length] in IH. lia.
  - rewrite toggleRecord_other by done.
    specialize (IH fx). destruct (mapM (M:=Upd) _ l fx) as [l' fx2]. simpl in *. lia.
Qed.

Lemma toggleAttendance_logs_length e nm st :
  (length (logs (toggleAttendance e nm st)) ≤ Nat.max 100 (length (logs st)))%nat.
Proof.
  unfold toggleAttendance.
  pose proof (run_logs_length e (selectedDate st) nm
                (default defaultDay (history st !! selectedDate st))
                {| fx_logs := logs st; fx_rand := 0 |}) as H.
  destruct (mapM (M:=Upd) _ _ _) as [l' fx]. simpl in *. done.
Qed.

(** Every entry that a toggle adds carries the toggled name and the
    selected date. *)
Lemma run_logs_entries e selDate nm l fx (P : LogEntry → Prop) :
  (∀ x, log_name x = nm → log_date x = selDate → P x) →
  Forall P (fx_logs fx) →
  Forall P (fx_logs (mapM (toggleRecord e selDate nm (format_HHmmss (now e))) l fx).2).
Proof.
  intros HP. revert fx. induction l as [|r l IH]; intros fx Hfx; [done|].
  rewrite run_cons.
  destruct (decide (name r = nm)) as [Heq|Hne].
  - rewrite toggleRecord_match by done.
    match goal with |- context [mapM ?f l ?fx1] =>
      specialize (IH fx1); destruct (mapM f l fx1) as [l' fx2] end.
    simpl in *. apply IH. unfold prependLog. apply Forall_take.
    constructor; [|done]. by apply HP.
  - rewrite toggleRecord_other by done.
    specialize (IH fx Hfx). by destruct (mapM (M:=Upd) _ l fx) as [l' fx2].
Qed.

Lemma toggleAttendance_logs_entries e nm st (P : LogEntry → Prop) :
  (∀ x, log_name x = nm → log_date x = selectedDate st → P x) →
  Forall P (logs st) → Forall P (logs (toggleAttendance e nm st)).
Proof.
  intros HP Hlogs. unfold toggleAttendance.
  pose proof (run_logs_entries e (selectedDate st) nm
                (default defaultDay (history st !! selectedDate st))
                {| fx_logs := logs st; fx_rand := 0 |} P HP Hlogs) as H.
  destruct (mapM (M:=Upd) _ _ _) as [l' fx]. simpl in *. done.
Qed.

Lemma toggleAttendance_storeOK e nm st :
  storeOK (history st) → storeOK (history (toggleAttendance e nm st)).
Proof.
  intros HOK d records. rewrite toggleAttendance_history.
  destruct (decide (selectedDate st = d)) as [<-|Hne].
  - rewrite lookup_insert_eq. intros [= <-].
    apply Forall_fmap, Forall_forall. intros r Hr. simpl.
    destruct (String.eqb (name r) nm); [apply flipped_OK|].
    revert r Hr. apply Forall_forall. unfold recordsOn.
    destruct (history st !! selectedDate st) as [l|] eqn:Hl; simpl.
    + by eapply HOK.
    + apply defaultDay_OK.
  - rewrite lookup_insert_ne by done. apply HOK.
Qed.

Lemma resetAttendance_storeOK confirmed st :
  storeOK (history st) → storeOK (history (resetAttendance confirmed st)).
Proof.
  intros HOK. destruct confirmed; simpl; [|done].
  intros d records. destruct (decide (selectedDate st = d)) as [<-|Hne].
  - rewrite lookup_insert_eq. intros [= <-]. apply defaultDay_OK.
  - rewrite lookup_insert_ne by done. apply HOK.
Qed.

(** X1. From a state whose store is roster-shaped and satisfies the
    record invariant and whose log has at most 100 entries, all of roster
    names, every state the page can get to is again such a state. *)
Theorem reachable_invariants (st0 st : AppState) :
  rosterShaped (history st0) →
  storeOK (history st0) →
  (length (logs st0) ≤ 100)%nat →
  Forall (fun x => log_name x ∈ FRIENDS) (logs st0) →
  reachableFrom st0 st →
  rosterShaped (history st)
  ∧ storeOK (history st)
  ∧ (length (logs st) ≤ 100)%nat
  ∧ Forall (fun x => log_name x ∈ FRIENDS) (logs st).
Proof.
  intros Hshape HOK Hlen Hnames Hreach.
  induction Hreach as [|st d _ IH|st confirmed _ IH|st e r _ IH Hr].
  - done.
  - exact IH.
  - destruct IH as (IH1 & IH2 & IH3 & IH4). split_and!.
    + by apply resetAttendance_rosterShaped.
    + by apply resetAttendance_storeOK.
    + by destruct confirmed.
    + by destruct confirmed.
  - destruct IH as (IH1 & IH2 & IH3 & IH4). split_and!.
    + by apply toggleAttendance_rosterShaped.
    + by apply toggleAttendance_storeOK.
    + pose proof (toggleAttendance_logs_length e (name r) st). lia.
    + apply toggleAttendance_logs_entries; [|done].
      intros x -> _.
      change ((currentAttendance st).1) with (recordsOn (history st) (selectedDate st)) in Hr.
      rewrite <- (recordsOn_rosterShaped (history st) (selectedDate st) IH1).
      by apply list_elem_of_fmap_2.
Qed.

Lemma reachable_invariants_witness :
  let e := {| now := mkDate 19792 29109000; randomId := fun _ => "k3j9x0q1z"%string |} in
  let st := toggleAttendance e "Nisa" (freshState "2024-03-10") in
  rosterShaped (history st)
  ∧ storeOK (history st)
  ∧ (length (logs st) ≤ 100)%nat
  ∧ Forall (fun x => log_name x ∈ FRIENDS) (logs st).
Proof.
  apply (reachable_invariants (freshState "2024-03-10")).
  - intros d records Hd. done.
  - intros d records Hd. done.
  - simpl. lia.
  - constructor.
  - apply (reach_toggle _ (freshState "2024-03-10") _
             (mkAttendanceRecord "Nisa" None false)).
    + constructor.
    + simpl. unfold defaultDay. simpl. set_solver.
Defined.

(** ** A click on a row of a roster-shaped store *)

Lemma rosterShaped_unique hist d i nm :
  rosterShaped hist → FRIENDS !! i = Some nm →
  ∃ r, recordsOn hist d !! i = Some r ∧ name r = nm
       ∧ ∀ j r', recordsOn hist d !! j = Some r' → name r' = nm → j = i.
Proof.
  intros Hshape Hi.
  pose proof (recordsOn_rosterShaped hist d Hshape) as Hn.
  assert (∀ j r', recordsOn hist d !! j = Some r' → FRIENDS !! j = Some (name r')) as Hat.
  { intros j r' Hj. rewrite <- Hn, list_lookup_fmap, Hj. done. }
  assert (is_Some (recordsOn hist d !! i)) as [r Hr].
  { apply lookup_lt_is_Some. rewrite <- (length_fmap name), Hn.
    by eapply lookup_lt_Some. }
  exists r. split_and!; [done| |].
  - apply Hat in Hr. congruence.
  - intros j r' Hj Hnm. apply Hat in Hj. rewrite Hnm in Hj.
    by eapply NoDup_lookup; [apply FRIENDS_NoDup| |].
Qed.

(** X2. In a roster-shaped store, toggling the [i]-th roster name changes
    the [i]-th record of the selected date and no other, and puts exactly
    one entry for that name and date at the front of the log. *)
Theorem toggleAttendance_roster_member (e : Env) (st : AppState) (i : nat) (nm : string) :
  rosterShaped (history st) →
  FRIENDS !! i = Some nm →
  let d := selectedDate st in
  let st' := toggleAttendance e nm st in
  ∃ r, recordsOn (history st) d !! i = Some r
       ∧ name r = nm
       ∧ recordsOn (history st') d
         = <[i := {| name := nm;
                     isPresent := negb (isPresent r);
                     time := if isPresent r then None
                             else Some (format_HHmmss (now e)) |}]>
             (recordsOn (history st) d)
       ∧ logs st' = {| log_id := randomId e 0;
                       log_name := nm;
                       log_action := if isPresent r then keluar else masuk;
                       log_time := format_HHmmss (now e);
                       log_date := d |} :: take 99 (logs st).
Proof.
  intros Hshape Hi d st'.
  destruct (rosterShaped_unique (history st) d i nm Hshape Hi) as (r & Hr & Hnm & Huniq).
  exists r. split_and!; [done..| |].
  - unfold st'. rewrite (toggleAttendance_one_match e nm st i r) by done.
    unfold recordsOn at 1. simpl. rewrite lookup_insert_eq. simpl. fold d.
    f_equal. unfold flipped. rewrite Hnm. by destruct (isPresent r).
  - unfold st'. rewrite (toggleAttendance_one_match e nm st i r) by done.
    simpl. unfold entryFor. by rewrite Hnm.
Qed.

Lemma toggleAttendance_roster_member_witness :
  let e := {| now := mkDate 19792 29109000; randomId := fun _ => "k3j9x0q1z"%string |} in
  let st' := toggleAttendance e "Nisa" (freshState "2024-03-10") in
  ∃ r, recordsOn ∅ "2024-03-10" !! 2%nat = Some r
       ∧ name r = "Nisa"%string
       ∧ recordsOn (history st') "2024-03-10"
         = <[2%nat := {| name := "Nisa";
                         isPresent := negb (isPresent r);
                         time := if isPresent r then None
                                 else Some (format_HHmmss (now e)) |}]>
             (recordsOn ∅ "2024-03-10")
       ∧ logs st' = {| log_id := "k3j9x0q1z";
                       log_name := "Nisa";
                       log_action := if isPresent r then keluar else masuk;
                       log_time := format_HHmmss (now e);
                       log_date := "2024-03-10" |} :: take 99 [].
Proof.
  apply (toggleAttendance_roster_member
           {| now := mkDate 19792 29109000; randomId := fun _ => "k3j9x0q1z"%string |}
           (freshState "2024-03-10") 2%nat "Nisa").
  - intros d records Hd. done.
  - reflexivity.
Defined.

(** ** The number of people present *)

Lemma filter_insert_length {A} (P : A → Prop) `{!∀ x, Decision (P x)}
    (l : list A) (i : nat) (x y : A) :
  l !! i = Some x →
  (length (filter P (<[i := y]> l)) + (if decide (P x) then 1 else 0)
   = length (filter P l) + (if decide (P y) then 1 else 0))%nat.
Proof.
  intros Hi. rewrite insert_take_drop by (by eapply lookup_lt_Some).
  rewrite <- (take_drop_middle l i x Hi) at 3.
  rewrite !filter_app, !filter_cons, !length_app.
  destruct (decide (P x)), (decide (P y)); simpl; lia.
Qed.

(** X3. In a roster-shaped store, after a roster member is toggled the
    selected date shows the same records with that member's record
    flipped, and the number present goes up by one if the member was
    absent and down by one if the member was present. *)
Theorem presentCount_toggle (e : Env) (st : AppState) (nm : string) :
  rosterShaped (history st) →
  nm ∈ FRIENDS →
  let st' := toggleAttendance e nm st in
  ∃ r, r ∈ (currentAttendance st).1
       ∧ name r = nm
       ∧ (currentAttendance st').1
         = (fun x => if String.eqb (name x) nm
                     then flipped (format_HHmmss (now e)) x else x)
           <$> (currentAttendance st).1
       ∧ (isPresent r = false → presentCount st' = S (presentCount st))
       ∧ (isPresent r = true → S (presentCount st') = presentCount st).
Proof.
  intros Hshape [i Hi]%list_elem_of_lookup st'.
  destruct (rosterShaped_unique (history st) (selectedDate st) i nm Hshape Hi)
    as (r & Hr & Hnm & Huniq).
  assert ((currentAttendance st').1
          = <[i := flipped (format_HHmmss (now e)) r]>
              (recordsOn (history st) (selectedDate st))) as Hafter.
  { unfold st'. rewrite (toggleAttendance_one_match e nm st i r) by done.
    simpl. by rewrite lookup_insert_eq. }
  exists r. split_and!.
  - by eapply list_elem_of_lookup_2.
  - done.
  - unfold st', currentAttendance. cbn [fst].
    rewrite toggleAttendance_selectedDate, toggleAttendance_history.
    by rewrite lookup_insert_eq.
  - intros Habs. unfold presentCount. rewrite Hafter.
    pose proof (filter_insert_length (fun x => isPresent x = true)
                  (recordsOn (history st) (selectedDate st)) i r
                  (flipped (format_HHmmss (now e)) r) Hr) as H.
    rewrite decide_False in H by (rewrite Habs; done).
    rewrite decide_True in H by (unfold flipped; simpl; by rewrite Habs).
    change ((currentAttendance st).1) with (recordsOn (history st) (selectedDate st)). lia.
  - intros Hpres. unfold presentCount. rewrite Hafter.
    pose proof (filter_insert_length (fun x => isPresent x = true)
                  (recordsOn (history st) (selectedDate st)) i r
                  (flipped (format_HHmmss (now e)) r) Hr) as H.
    rewrite decide_True in H by done.
    rewrite decide_False in H by (unfold flipped; simpl; by rewrite Hpres).
    change ((currentAttendance st).1) with (recordsOn (history st) (selectedDate st)). lia.
Qed.

Lemma presentCount_toggle_witness :
  let e := {| now := mkDate 19792 29109000; randomId := fun _ => "k3j9x0q1z"%string |} in
  presentCount (toggleAttendance e "Nisa" (freshState "2024-03-10")) = 1%nat.
Proof.
  destruct (presentCount_toggle
              {| now := mkDate 19792 29109000; randomId := fun _ => "k3j9x0q1z"%string |}
              (freshState "2024-03-10") "Nisa") as (r & Hr & Hnm & _ & Hup & _).
  - intros d records Hd. done.
  - unfold FRIENDS. set_solver.
  - simpl in Hr. unfold defaultDay in Hr. simpl in Hr.
    etrans; [apply Hup|reflexivity].
    repeat (apply elem_of_cons in Hr as [->|Hr]; [reflexivity|]).
    by apply elem_of_nil in Hr.
Defined.

(** X4. After a confirmed reset nobody is counted present on the selected
    date; nobody is counted present on a date with no entry; and in a
    roster-shaped store the count never exceeds the size of the roster. *)
Theorem presentCount_bounds (st : AppState) :
  presentCount (resetAttendance true st) = 0%nat
  ∧ (history st !! selectedDate st = None → presentCount st = 0%nat)
  ∧ (rosterShaped (history st) → (presentCount st ≤ length FRIENDS)%nat).
Proof.
  split_and!.
  - unfold presentCount, currentAttendance. simpl. by rewrite lookup_insert_eq.
  - intros Hnone. unfold presentCount, currentAttendance. simpl. by rewrite Hnone.
  - intros Hshape. unfold presentCount.
    change ((currentAttendance st).1) with (recordsOn (history st) (selectedDate st)).
    rewrite <- (recordsOn_rosterShaped (history st) (selectedDate st) Hshape).
    rewrite length_fmap. apply length_filter.
Qed.

Lemma presentCount_bounds_witness :
  let st := mkAppState {[ "2024-03-09"%string :=
                            [mkAttendanceRecord "Nisa" (Some "07:00:00"%string) true] ]}
                       [] "2024-03-10" in
  presentCount st = 0%nat.
Proof.
  destruct (presentCount_bounds
    (mkAppState {[ "2024-03-09"%string :=
                     [mkAttendanceRecord "Nisa" (Some "07:00:00"%string) true] ]}
                [] "2024-03-10")) as (_ & H & _).
  apply H. reflexivity.
Defined.

(** X5. A confirmed reset discards what earlier toggles did to the
    selected date: the store is the one a reset alone would give, while
    the log keeps the entries that the toggle added. *)
Theorem resetAttendance_after_toggle (e : Env) (nm : string) (st : AppState) :
  history (resetAttendance true (toggleAttendance e nm st))
  = history (resetAttendance true st)
  ∧ logs (resetAttendance true (toggleAttendance e nm st))
    = logs (toggleAttendance e nm st)
  ∧ history (resetAttendance true (resetAttendance true st))
    = history (resetAttendance true st).
Proof.
  split_and!.
  - simpl. rewrite toggleAttendance_selectedDate, toggleAttendance_history.
    by rewrite insert_insert_eq.
  - reflexivity.
  - simpl. by rewrite insert_insert_eq.
Qed.

(** ** The chart and the header agree *)

Lemma presentCount_on (st : AppState) (d : string) :
  presentCount (setSelectedDate d st)
  = length (filter (fun r => isPresent r = true) (default [] (history st !! d))).
Proof.
  unfold presentCount, currentAttendance. simpl.
  by destruct (history st !! d).
Qed.

(** X6. Under the conditions of the weekly statistics (one calendar day
    read by the clock, in the years 1 to 9999), the count of every entry
    of the chart is the number that the header shows as present when that
    entry's date is the selected date. *)
Theorem weeklyStats_count_presentCount (clock : nat → Date) (st : AppState) (today : Z) :
  (∀ k, (k ≤ 7)%nat → dayNumber (clock k) = today) →
  -719162 ≤ today - (today + 3) mod 7 →
  today - (today + 3) mod 7 + 6 ≤ 2932896 →
  ∃ stats,
    weeklyStats clock (history st) = Normal stats
    ∧ Forall (fun s => count s = presentCount (setSelectedDate (fullDate s) st)) stats.
Proof.
  intros Hclock Hlo Hhi. eexists. split; [by apply weeklyStats_eq|].
  apply Forall_fmap, Forall_true. intros k. unfold compose.
  by rewrite presentCount_on.
Qed.

Lemma weeklyStats_count_presentCount_witness :
  let clock := fun _ : nat => {| dayNumber := 19792; msOfDay := 29109000 |} in
  let st := freshState "2024-03-10" in
  ∃ stats,
    weeklyStats clock (history st) = Normal stats
    ∧ Forall (fun s => count s = presentCount (setSelectedDate (fullDate s) st)) stats.
Proof.
  apply (weeklyStats_count_presentCount
           (fun _ : nat => {| dayNumber := 19792; msOfDay := 29109000 |})
           (freshState "2024-03-10") 19792).
  - intros k _. reflexivity.
  - vm_compute. discriminate.
  - vm_compute. discriminate.
Defined.

(** ** The most diligent *)

(** X7. The list of the most diligent has three entries, in descending
    order of total, and none of the entries left out has a greater total
    than one that is listed. *)
Theorem topFriends_spec (hist : DailyData) :
  length (topFriends hist) = 3%nat
  ∧ StronglySorted (fun a b => (total b ≤ total a)%nat) (topFriends hist)
  ∧ Forall (fun a => Forall (fun b => (total b ≤ total a)%nat)
                            (drop 3 (friendStats hist)))
           (topFriends hist)
  ∧ topFriends hist ++ drop 3 (friendStats hist) ≡ₚ friendTotals hist.
Proof.
  pose proof (friendStats_sorted hist) as Hs.
  pose proof (friendStats_Permutation hist) as Hp.
  assert (length (friendStats hist) = 9%nat) as Hlen.
  { rewrite Hp. unfold friendTotals. by rewrite length_map. }
  unfold topFriends. rewrite <- (take_drop 3 (friendStats hist)) in Hs.
  split_and!.
  - rewrite length_take. lia.
  - by eapply StronglySorted_app_1_l.
  - apply Forall_forall. intros a Ha. apply Forall_forall. intros b Hb.
    by eapply (StronglySorted_app_1_elem_of _ _ _ a b Hs).
  - by rewrite take_drop.
Qed.

(** ** Totals add up *)

Lemma presentIn_name nm records : presentIn nm records → nm ∈ name <$> records.
Proof.
  intros (r & Hr & <- & _)%Exists_exists. by apply list_elem_of_fmap_2.
Qed.

Lemma filter_ext_elem {A} (P Q : A → Prop) `{!∀ x, Decision (P x), !∀ x, Decision (Q x)}
    (l : list A) :
  (∀ x, x ∈ l → P x ↔ Q x) → filter P l = filter Q l.
Proof.
  induction l as [|x l IH]; intros Hext; [done|].
  rewrite !filter_cons.
  pose proof (Hext x (list_elem_of_here x l)) as Hx.
  rewrite IH by (intros y Hy; apply Hext; by right).
  destruct (decide (P x)) as [HP|HP], (decide (Q x)) as [HQ|HQ]; try done.
  - by apply Hx in HP.
  - by apply Hx in HQ.
Qed.

(** In a set with one record per name, the names counted present are as
    many as the present records. *)
Lemma present_names_count records :
  NoDup (name <$> records) →
  length (filter (fun nm => presentIn nm records) (name <$> records))
  = length (filter (fun r => isPresent r = true) records).
Proof.
  induction records as [|r records IH]; [done|].
  rewrite fmap_cons. intros [Hnotin Hnd]%NoDup_cons.
  assert (filter (fun nm => presentIn nm (r :: records)) (name <$> records)
          = filter (fun nm => presentIn nm records) (name <$> records)) as Htail.
  { apply filter_ext_elem. intros nm Hnm. unfold presentIn. rewrite Exists_cons.
    split; [|by right]. intros [[<- _]|?]; done. }
  assert (presentIn (name r) (r :: records) ↔ isPresent r = true) as Hhead.
  { unfold presentIn. rewrite Exists_cons. split; [|by left].
    intros [[_ ?]|Hin]; [done|]. by apply presentIn_name in Hin. }
  specialize (IH Hnd).
  rewrite !filter_cons, Htail.
  destruct (decide (presentIn (name r) (r :: records))) as [Hp|Hp],
           (decide (isPresent r = true)) as [Hq|Hq]; simpl; try lia.
  - by apply Hhead in Hp.
  - by apply Hhead in Hq.
Qed.

Lemma sum_filter_lengths {A B} (R : A → B → Prop) `{!∀ a b, Decision (R a b)}
    (la : list A) (lb : list B) :
  sum_list_with (fun a => length (filter (R a) lb)) la
  = sum_list_with (fun b => length (filter (fun a => R a b) la)) lb.
Proof.
  induction lb as [|b lb IH]; simpl.
  - induction la as [|a la IHa]; [done|]. simpl. by rewrite IHa.
  - rewrite <- IH. clear IH.
    induction la as [|a la IHa]; [done|].
    simpl. rewrite !filter_cons, IHa.
    destruct (decide (R a b)); simpl; lia.
Qed.

(** X8. In a roster-shaped store, the totals of [friendStats] add up to
    the number of present records over all stored dates. *)
Theorem friendStats_totals_sum (hist : DailyData) :
  rosterShaped hist →
  sum_list_with total (friendStats hist)
  = sum_list_with (fun records => length (filter (fun r => isPresent r = true) records))
                  (Object_values hist).
Proof.
  intros Hshape. rewrite (friendStats_Permutation hist).
  unfold friendTotals.
  assert (∀ names,
            sum_list_with total
              (map (fun nm => {| fs_name := nm;
                                 total := fold_left (countDay nm) (Object_values hist) 0%nat |})
                   names)
            = sum_list_with (fun nm => length (filter (presentIn nm) (Object_values hist)))
                            names) as ->.
  { induction names as [|nm names IH]; [done|]. simpl. rewrite IH. f_equal.
    by rewrite fold_countDay. }
  rewrite (sum_filter_lengths presentIn).
  assert (Forall (fun records => name <$> records = FRIENDS) (Object_values hist)) as Hall.
  { apply Forall_forall. intros records Hin. unfold Object_values in Hin.
    apply list_elem_of_fmap in Hin as ([d recs] & -> & Hin).
    apply elem_of_map_to_list in Hin. by eapply Hshape. }
  induction Hall as [|records l Hrec _ IH]; [done|].
  simpl. rewrite IH. f_equal.
  rewrite <- Hrec at 1. apply present_names_count. rewrite Hrec. apply FRIENDS_NoDup.
Qed.

Lemma friendStats_totals_sum_witness :
  let hist : DailyData :=
    {[ "2024-03-10"%string :=
         <[2%nat := mkAttendanceRecord "Nisa" (Some "08:05:09"%string) true]> defaultDay ]} in
  sum_list_with total (friendStats hist) = 1%nat.
Proof.
  etrans.
  - apply (friendStats_totals_sum
             {[ "2024-03-10"%string :=
                  <[2%nat := mkAttendanceRecord "Nisa" (Some "08:05:09"%string) true]>
                    defaultDay ]}).
    intros d records Hd. apply lookup_singleton_Some in Hd as [_ <-]. reflexivity.
  - unfold Object_values. rewrite map_to_list_singleton. reflexivity.
Defined.

(** ** A toggle and the totals *)

Lemma presentIn_insert records i r r' nm :
  records !! i = Some r → name r' = name r → name r ≠ nm →
  presentIn nm (<[i := r']> records) ↔ presentIn nm records.
Proof.
  intros Hi Hname Hne.
  rewrite insert_take_drop by (by eapply lookup_lt_Some).
  rewrite <- (take_drop_middle records i r Hi) at 3.
  unfold presentIn. rewrite !Exists_app, !Exists_cons.
  split; intros [?|[[? _]|?]]; auto; congruence.
Qed.

Lemma presentIn_unique_absent records i r nm :
  records !! i = Some r → isPresent r = false →
  (∀ j r', records !! j = Some r' → name r' = nm → j = i) →
  ¬ presentIn nm records.
Proof.
  intros Hi Habs Huniq (r' & Hin & Hn & Hp)%Exists_exists.
  apply list_elem_of_lookup in Hin as [j Hj].
  assert (j = i) as -> by (by eapply Huniq). congruence.
Qed.

Lemma defaultDay_not_presentIn nm : ¬ presentIn nm defaultDay.
Proof.
  intros (r & Hin & _ & Hp)%Exists_exists.
  pose proof defaultDay_absent as Hall. rewrite Forall_forall in Hall.
  destruct (Hall r Hin) as [Habs _]. congruence.
Qed.

(** X9. In a roster-shaped store, toggling a roster member who is absent
    on the selected date raises that member's total by one and leaves
    every other total as it was. *)
Theorem friendTotals_toggle_present (e : Env) (st : AppState) (i : nat) (nm : string)
    (r : AttendanceRecord) :
  rosterShaped (history st) →
  FRIENDS !! i = Some nm →
  recordsOn (history st) (selectedDate st) !! i = Some r →
  isPresent r = false →
  friendTotals (history (toggleAttendance e nm st))
  = (fun s => if String.eqb (fs_name s) nm
              then {| fs_name := fs_name s; total := S (total s) |}
              else s)
    <$> friendTotals (history st).
Proof.
  intros Hshape Hi Hr Habs.
  destruct (rosterShaped_unique (history st) (selectedDate st) i nm Hshape Hi)
    as (r0 & Hr0 & Hnm & Huniq).
  assert (r0 = r) as -> by congruence.
  rewrite (toggleAttendance_one_match e nm st i r) by done. cbn [history].
  set (d := selectedDate st) in *. set (day := recordsOn (history st) d) in *.
  set (day' := <[i := flipped (format_HHmmss (now e)) r]> day).
  unfold friendTotals. generalize FRIENDS at 1 2. intros names.
  induction names as [|nm' names IH]; [done|].
  cbn [map]. rewrite fmap_cons, IH. f_equal. clear IH. cbn [fs_name total].
  assert (fold_left (countDay nm') (Object_values (<[d := day']> (history st))) 0%nat
          = if String.eqb nm' nm
            then S (fold_left (countDay nm') (Object_values (history st)) 0%nat)
            else fold_left (countDay nm') (Object_values (history st)) 0%nat) as ->;
    [|by destruct (String.eqb nm' nm)].
  rewrite !total_size.
  set (P := fun kv : string * list AttendanceRecord => presentIn nm' kv.2).
  assert (¬ presentIn nm day) as Hnot by (by eapply presentIn_unique_absent).
  rewrite (map_filter_insert P).
  destruct (String.eqb_spec nm' nm) as [->|Hne].
  - (* the toggled member *)
    rewrite decide_True.
    2:{ unfold P, day', presentIn. simpl. apply Exists_exists.
        exists (flipped (format_HHmmss (now e)) r). split_and!.
        - eapply list_elem_of_lookup_2. apply list_lookup_insert_eq.
          by eapply lookup_lt_Some.
        - done.
        - simpl. by rewrite Habs. }
    rewrite map_size_insert_None; [done|].
    apply map_lookup_filter_None_2.
    destruct (history st !! d) as [old|] eqn:Hd; [right|by left].
    intros x [= <-]. unfold P. simpl. unfold day, recordsOn in Hnot.
    by rewrite Hd in Hnot.
  - (* another member *)
    assert (presentIn nm' day' ↔ presentIn nm' day) as Hsame.
    { apply presentIn_insert with r; [done|done|congruence]. }
    destruct (history st !! d) as [old|] eqn:Hd.
    + assert (day = old) as Hday by (unfold day, recordsOn; by rewrite Hd).
      destruct (decide (P (d, day'))) as [HP|HP].
      * rewrite map_size_insert_Some; [done|].
        exists old. apply map_lookup_filter_Some. split; [done|].
        unfold P. simpl. rewrite <- Hday. by apply Hsame.
      * rewrite map_filter_delete_not; [done|].
        intros y Hy. rewrite Hd in Hy. injection Hy as <-.
        unfold P in *. simpl in *. rewrite <- Hday. by rewrite <- Hsame.
    + assert (day = defaultDay) as Hday by (unfold day, recordsOn; by rewrite Hd).
      rewrite decide_False.
      2:{ unfold P. simpl. rewrite Hsame, Hday. apply defaultDay_not_presentIn. }
      by rewrite delete_id.
Qed.

Lemma friendTotals_toggle_present_witness :
  let e := {| now := mkDate 19792 29109000; randomId := fun _ => "k3j9x0q1z"%string |} in
  friendTotals (history (toggleAttendance e "Nisa" (freshState "2024-03-10")))
  = (fun s => if String.eqb (fs_name s) "Nisa"
              then {| fs_name := fs_name s; total := S (total s) |}
              else s)
    <$> friendTotals ∅.
Proof.
  apply (friendTotals_toggle_present
           {| now := mkDate 19792 29109000; randomId := fun _ => "k3j9x0q1z"%string |}
           (freshState "2024-03-10") 2%nat "Nisa"
           (mkAttendanceRecord "Nisa" None false)).
  - intros d records Hd. done.
  - reflexivity.
  - reflexivity.
  - reflexivity.
Defined.

(** ** A record set with several records of one name *)

Lemma run_general e selDate nm l fx :
  (mapM (toggleRecord e selDate nm (format_HHmmss (now e))) l fx).2
  = {| fx_logs := appendAll (imap (fun k r => entryFor e selDate (fx_rand fx + k) r)
                                  (filter (fun r => name r = nm) l))
                            (fx_logs fx);
       fx_rand := fx_rand fx + length (filter (fun r => name r = nm) l) |}.
Proof.
  revert fx. induction l as [|r l IH]; intros fx.
  - destruct fx. simpl. f_equal. lia.
  - rewrite run_cons, filter_cons.
    destruct (decide (name r = nm)) as [Heq|Hne].
    + rewrite toggleRecord_match by done.
      match goal with |- context [mapM ?f l ?fx1] =>
        specialize (IH fx1); destruct (mapM f l fx1) as [l' fx2] end.
      cbn [snd fx_logs fx_rand] in *. rewrite IH. f_equal.
      * unfold appendAll. cbn [imap fold_left]. rewrite Nat.add_0_r. f_equal.
        apply imap_ext. intros k x _. simpl. f_equal. lia.
      * cbn [length]. lia.
    + rewrite toggleRecord_other by done.
      specialize (IH fx). destruct (mapM (M:=Upd) _ l fx) as [l' fx2]. simpl in *. done.
Qed.

(** X10. Whatever the record set of the selected date holds, a toggle
    flips every record of the given name and appends one log entry per
    such record, in the order of the records, the [k]-th with the [k]-th
    value of [Math.random]; so a set with two records of one name gets
    two entries for one click. *)
Theorem toggleAttendance_general (e : Env) (nm : string) (st : AppState) :
  let d := selectedDate st in
  let dayData := recordsOn (history st) d in
  let st' := toggleAttendance e nm st in
  history st' !! d
  = Some ((fun r => if String.eqb (name r) nm
                    then flipped (format_HHmmss (now e)) r else r) <$> dayData)
  ∧ logs st'
    = appendAll (imap (fun k r => entryFor e d k r)
                      (filter (fun r => name r = nm) dayData))
                (logs st)
  ∧ (length (logs st')
     = Nat.min 100 (length (filter (fun r => name r = nm) dayData) + length (logs st))
     ∨ (filter (fun r => name r = nm) dayData = [] ∧ logs st' = logs st)).
Proof.
  intros d dayData st'.
  assert (logs st'
          = appendAll (imap (fun k r => entryFor e d k r)
                            (filter (fun r => name r = nm) dayData)) (logs st)) as Hlogs.
  { unfold st', toggleAttendance. fold d. fold (recordsOn (history st) d). fold dayData.
    pose proof (run_general e d nm dayData {| fx_logs := logs st; fx_rand := 0 |}) as H.
    destruct (mapM (M:=Upd) _ _ _) as [l' fx]. simpl in *. by rewrite H. }
  split_and!.
  - unfold st'. by rewrite toggleAttendance_history, lookup_insert_eq.
  - done.
  - rewrite Hlogs.
    destruct (appendAll_take (imap (fun k r => entryFor e d k r)
                (filter (fun r => name r = nm) dayData)) (logs st)) as [->|[Hnil ->]].
    + left. rewrite length_take, length_app, length_rev, length_imap. done.
    + right. split; [|done]. by destruct (filter _ dayData).
Qed.

(** ** Saving and loading *)

Lemma append_nil_r (s : string) : s +:+ "" = s.
Proof. induction s as [|c s IH]; [done|]. cbv [String.append]. fold String.append. by rewrite IH. Qed.

Lemma append_cons (c : ascii) (a b : string) : String c a +:+ b = String c (a +:+ b).
Proof. reflexivity. Qed.

Lemma append_nil_l (b : string) : "" +:+ b = b.
Proof. reflexivity. Qed.

Lemma append_assoc (a b c : string) : (a +:+ b) +:+ c = a +:+ (b +:+ c).
Proof. induction a as [|x a IH]; [done|]. by rewrite !append_cons, IH. Qed.

Lemma concat_cons2 (sep x y : string) (l : list string) :
  String.concat sep (x :: y :: l) = x +:+ sep +:+ String.concat sep (y :: l).
Proof. reflexivity. Qed.

Lemma skipWhitespace_cons (c : ascii) (r : string) :
  isWhitespace c = false → skipWhitespace (String c r) = String c r.
Proof. intros H. simpl. by rewrite H. Qed.

(** More fuel does not change an outcome that was reached. *)
Lemma parse_mono fuel :
  ∀ s,
    (parseValue fuel s ≠ OutOfFuel → parseValue (S fuel) s = parseValue fuel s)
    ∧ (parseElements fuel s ≠ OutOfFuel → parseElements (S fuel) s = parseElements fuel s)
    ∧ (parseMembers fuel s ≠ OutOfFuel → parseMembers (S fuel) s = parseMembers fuel s).
Proof.
  induction fuel as [|fuel IH]; intros s.
  { split_and!; intros H; by destruct H. }
  split_and!.
  - rewrite (parseValue_S (S fuel)), (parseValue_S fuel).
    destruct (skipWhitespace s) as [|c r]; [done|].
    repeat (match goal with
            | |- context [if Ascii.eqb c ?x then _ else _] =>
                destruct (Ascii.eqb c x)
            end; try done).
    + destruct (dropPrefix _ _); [done|]. intros H.
      destruct (IH r) as (_ & He & _). rewrite He; [done|].
      intros Hf. by rewrite Hf in H.
    + destruct (dropPrefix _ _); [done|]. intros H.
      destruct (IH r) as (_ & _ & Hm). rewrite Hm; [done|].
      intros Hf. by rewrite Hf in H.
  - rewrite (parseElements_S (S fuel)), (parseElements_S fuel).
    destruct (IH s) as (Hv & _). intros H.
    rewrite Hv by (intros Hf; by rewrite Hf in H).
    destruct (parseValue fuel s) as [v r| |]; [|done..].
    destruct (skipWhitespace r) as [|c r']; [done|].
    destruct (Ascii.eqb c ","); [|done].
    destruct (IH r') as (_ & He & _). rewrite He; [done|].
    intros Hf. by rewrite Hf in H.
  - rewrite (parseMembers_S (S fuel)), (parseMembers_S fuel).
    destruct (dropPrefix _ (skipWhitespace s)) as [r|]; [|done].
    destruct (parseChars r) as [k r1| |]; [|done..].
    destruct (dropPrefix _ (skipWhitespace r1)) as [r2|]; [|done].
    destruct (IH r2) as (Hv & _). intros H.
    rewrite Hv by (intros Hf; by rewrite Hf in H).
    destruct (parseValue fuel r2) as [v r3| |]; [|done..].
    destruct (skipWhitespace r3) as [|c r4]; [done|].
    destruct (Ascii.eqb c ","); [|done].
    destruct (IH r4) as (_ & _ & Hm). rewrite Hm; [done|].
    intros Hf. by rewrite Hf in H.
Qed.

Lemma parseValue_mono fuel fuel' s :
  parseValue fuel s ≠ OutOfFuel → (fuel ≤ fuel')%nat →
  parseValue fuel' s = parseValue fuel s.
Proof.
  intros H Hle. induction Hle as [|fuel' _ IH]; [done|].
  destruct (parse_mono fuel' s) as (Hv & _). rewrite Hv; [done|]. by rewrite IH.
Qed.

(** A text that parses as a value is what [JSON.parse] accepts. *)
Lemma parsesAs_JSON_parse n text v : parsesAs n text v → JSON_parse text = Normal v.
Proof.
  intros [_ Hp]. unfold JSON_parse.
  pose proof (JSON_parse_fuel text) as Hfuel.
  pose proof (parseValue_mono (parseFuel text) (Nat.max (parseFuel text) n) text Hfuel
                (Nat.le_max_l _ _)) as Hmono.
  rewrite <- Hmono. rewrite <- (append_nil_r text) at 2.
  rewrite Hp by lia. done.
Qed.

Lemma parsesAs_mono n m text v : parsesAs n text v → (n ≤ m)%nat → parsesAs m text v.
Proof. intros [Hc Hp] Hle. split; [done|]. intros fuel rest Hf. apply Hp. lia. Qed.

(** The parser reads back what [QuoteJSONString] writes. *)
Lemma parseChars_escapeUnit (c : ascii) (r : string) :
  parseChars (escapeUnit c +:+ r) = consUnit (N_of_ascii c) (parseChars r).
Proof.
  destruct c as [[|] [|] [|] [|] [|] [|] [|] [|]]; reflexivity.
Qed.

Lemma parseChars_escapeString (s rest : string) :
  parseChars (escapeString s +:+ String "034" rest) = Got (stringUnits s) rest.
Proof.
  induction s as [|c s IH]; [reflexivity|].
  simpl escapeString. rewrite append_assoc, parseChars_escapeUnit, IH. reflexivity.
Qed.

Lemma unitsString_stringUnits (s : string) : unitsString (stringUnits s) = Some s.
Proof.
  unfold unitsString, stringUnits.
  assert (mapM (fun u => if (u <? 256)%N then Some (ascii_of_N u) else None)
               (N_of_ascii <$> list_ascii_of_string s)
          = Some (list_ascii_of_string s)) as ->.
  { apply mapM_Some. apply Forall2_fmap_l, Forall_Forall2_diag, Forall_true.
    intros c. pose proof (N_ascii_bounded c) as Hb. unfold compose.
    destruct (N.ltb_spec (N_of_ascii c) 256); [|lia]. by rewrite ascii_N_embedding. }
  simpl. by rewrite string_of_list_ascii_of_string.
Qed.

Lemma parsesAs_string (s : string) :
  parsesAs 1 (QuoteJSONString s) (JString (stringUnits s)).
Proof.
  split; [by eexists _, _|].
  intros [|fuel] rest Hf; [lia|].
  unfold QuoteJSONString. rewrite append_cons, append_assoc, append_cons, append_nil_l.
  rewrite parseValue_S, skipWhitespace_cons by done. cbn [Ascii.eqb Bool.eqb].
  by rewrite parseChars_escapeString.
Qed.

Lemma parsesAs_null : parsesAs 1 "null" JNull.
Proof.
  split; [by eexists _, _|]. intros [|fuel] rest Hf; [lia|]. reflexivity.
Qed.

Lemma parsesAs_bool (b : bool) :
  parsesAs 1 (if b then "true" else "false")%string (JBool b).
Proof.
  split; [destruct b; by eexists _, _|].
  intros [|fuel] rest Hf; [lia|]. by destruct b.
Qed.

(** The elements of an array, up to its closing bracket. *)
Lemma parseElements_concat n texts vs rest fuel :
  Forall2 (parsesAs n) texts vs →
  texts ≠ [] →
  (n + length texts ≤ fuel)%nat →
  parseElements fuel (String.concat "," texts +:+ "]" +:+ rest) = Got vs rest.
Proof.
  intros Hall. revert fuel. induction Hall as [|t v ts vs' [_ Ht] Hts IH]; intros fuel Hne Hf.
  { done. }
  destruct fuel as [|fuel]; [simpl in Hf; lia|]. simpl in Hf.
  rewrite parseElements_S.
  destruct ts as [|t2 ts].
  - apply Forall2_nil_inv_l in Hts as ->.
    cbn [String.concat]. rewrite Ht by lia.
    rewrite append_cons, append_nil_l, skipWhitespace_cons by done.
    reflexivity.
  - rewrite concat_cons2, !append_assoc. rewrite Ht by lia.
    rewrite append_cons, append_nil_l, skipWhitespace_cons by done.
    cbn [Ascii.eqb Bool.eqb].
    rewrite IH; [done|done|simpl in *; lia].
Qed.

Lemma parsesAs_array n texts vs :
  Forall2 (parsesAs n) texts vs →
  parsesAs (n + length texts + 1) (stringifyArray texts) (JArray vs).
Proof.
  intros Hall. split; [by eexists _, _|].
  intros [|fuel] rest Hf; [lia|].
  unfold stringifyArray. rewrite !append_assoc, append_cons, append_nil_l.
  rewrite parseValue_S, skipWhitespace_cons by done. cbn [Ascii.eqb Bool.eqb].
  destruct Hall as [|t v ts vs' Ht Hts].
  - reflexivity.
  - assert (skipWhitespace (String.concat "," (t :: ts) +:+ "]" +:+ rest)
            = String.concat "," (t :: ts) +:+ "]" +:+ rest
            ∧ dropPrefix "]" (String.concat "," (t :: ts) +:+ "]" +:+ rest) = None)
      as [Hws Hdrop].
    { destruct Ht as [(c & r & -> & Hc1 & Hc2 & _) _].
      destruct ts as [|t2 ts]; [cbn [String.concat]|rewrite concat_cons2];
        rewrite !append_cons, skipWhitespace_cons by done;
        (split; [done|]); cbn [dropPrefix];
        rewrite Ascii.eqb_sym, Hc2; done. }
    rewrite Hws, Hdrop.
    rewrite (parseElements_concat n (t :: ts) (v :: vs')); [done| |done|].
    + by constructor.
    + simpl in *. lia.
Qed.

(** The members of an object, up to its closing brace. *)
Lemma parseMembers_concat n (props : list (string * string)) (ms : list (list N * json))
    rest fuel :
  Forall2 (fun kt kv => kv.1 = stringUnits kt.1 ∧ parsesAs n kt.2 kv.2) props ms →
  props ≠ [] →
  (n + length props ≤ fuel)%nat →
  parseMembers fuel
    (String.concat "," ((fun kt => stringifyProperty kt.1 kt.2) <$> props) +:+ "}" +:+ rest)
  = Got ms rest.
Proof.
  intros Hall. revert fuel.
  induction Hall as [|[k t] [ku v] ps ms' [Hk [_ Ht]] Hps IH]; intros fuel Hne Hf.
  { done. }
  simpl in Hk, Ht. subst ku.
  destruct fuel as [|fuel]; [simpl in Hf; lia|]. simpl in Hf.
  rewrite parseMembers_S, fmap_cons. cbn [fst snd].
  assert (∀ tail,
            stringifyProperty k t +:+ tail
            = String "034" (escapeString k +:+ String "034" (String ":" (t +:+ tail)))) as Hprop.
  { intros tail. unfold stringifyProperty, QuoteJSONString.
    repeat (rewrite append_assoc || rewrite append_cons || rewrite append_nil_l).
    reflexivity. }
  destruct ps as [|p2 ps].
  - apply Forall2_nil_inv_l in Hps as ->.
    cbn [fmap list_fmap String.concat]. rewrite Hprop.
    rewrite skipWhitespace_cons by done. cbn [dropPrefix Ascii.eqb Bool.eqb].
    rewrite parseChars_escapeString, skipWhitespace_cons by done.
    cbn [dropPrefix Ascii.eqb Bool.eqb].
    rewrite Ht by lia.
    rewrite append_cons, append_nil_l, skipWhitespace_cons by done.
    reflexivity.
  - rewrite fmap_cons, concat_cons2, !append_assoc. rewrite Hprop.
    rewrite skipWhitespace_cons by done. cbn [dropPrefix Ascii.eqb Bool.eqb].
    rewrite parseChars_escapeString, skipWhitespace_cons by done.
    cbn [dropPrefix Ascii.eqb Bool.eqb].
    rewrite Ht by lia.
    rewrite append_cons, append_nil_l, skipWhitespace_cons by done.
    cbn [Ascii.eqb Bool.eqb].
    specialize (IH fuel). rewrite fmap_cons in IH.
    rewrite IH; [done|done|simpl in *; lia].
Qed.

Lemma parsesAs_object n (props : list (string * string)) (ms : list (list N * json)) :
  Forall2 (fun kt kv => kv.1 = stringUnits kt.1 ∧ parsesAs n kt.2 kv.2) props ms →
  parsesAs (n + length props + 1)
           (stringifyObject ((fun kt => stringifyProperty kt.1 kt.2) <$> props))
           (JObject ms).
Proof.
  intros Hall. split; [by eexists _, _|].
  intros [|fuel] rest Hf; [lia|].
  unfold stringifyObject. rewrite !append_assoc, append_cons, append_nil_l.
  rewrite parseValue_S, skipWhitespace_cons by done. cbn [Ascii.eqb Bool.eqb].
  destruct Hall as [|[k t] [ku v] ps ms' Hkt Hps].
  - reflexivity.
  - assert (∀ tail, ∃ r, stringifyProperty k t +:+ tail = String "034" r) as Hq.
    { intros tail. unfold stringifyProperty, QuoteJSONString.
      rewrite !append_cons. by eexists. }
    assert (∃ r, String.concat "," ((fun kt => stringifyProperty kt.1 kt.2) <$> (k, t) :: ps)
                   +:+ "}" +:+ rest = String "034" r) as [r Hr].
    { rewrite fmap_cons. cbn [fst snd]. destruct ps as [|p2 ps].
      - cbn [fmap list_fmap String.concat]. apply Hq.
      - rewrite fmap_cons, concat_cons2, !append_assoc. apply Hq. }
    rewrite Hr, skipWhitespace_cons by done. cbn [dropPrefix Ascii.eqb Bool.eqb].
    rewrite <- Hr.
    rewrite (parseMembers_concat n ((k, t) :: ps) ((ku, v) :: ms')); [done| |done|].
    + by constructor.
    + simpl in *. lia.
Qed.

Lemma parses_all {A} (n : nat) (f : A → string) (g : json → option A) (l : list A) :
  (∀ x, x ∈ l → ∃ v, parsesAs n (f x) v ∧ g v = Some x) →
  ∃ vs, Forall2 (parsesAs n) (f <$> l) vs ∧ mapM g vs = Some l.
Proof.
  induction l as [|x l IH]; intros Hall.
  - exists []. by split; [constructor|].
  - destruct (Hall x) as (v & Hv & Hg); [by left|].
    destruct IH as (vs & Hvs & Hgs); [intros y Hy; apply Hall; by right|].
    exists (v :: vs). split; [by constructor|].
    apply mapM_Some. constructor; [done|]. by apply mapM_Some.
Qed.

Lemma stringifyRecord_parses (r : AttendanceRecord) :
  ∃ v, parsesAs 5 (stringifyRecord r) v ∧ asRecord v = Some r.
Proof.
  set (tv := match time r with Some t => JString (stringUnits t) | None => JNull end).
  exists (JObject [ (stringUnits "name", JString (stringUnits (name r)));
                    (stringUnits "time", tv);
                    (stringUnits "isPresent", JBool (isPresent r)) ]).
  split.
  - change (stringifyRecord r) with
      (stringifyObject
         ((fun kt => stringifyProperty kt.1 kt.2)
          <$> [ ("name", QuoteJSONString (name r));
                ("time", match time r with
                         | Some t => QuoteJSONString t
                         | None => "null" end);
                ("isPresent", if isPresent r then "true" else "false") ]%string)).
    apply (parsesAs_object 1).
    constructor; [split; [reflexivity|apply parsesAs_string]|].
    constructor; [split; [reflexivity|]|].
    { unfold tv. simpl. destruct (time r); [apply parsesAs_string|apply parsesAs_null]. }
    constructor; [split; [reflexivity|apply parsesAs_bool]|].
    constructor.
  - unfold asRecord.
    assert (∀ a b c, getProperty (stringUnits "name")
              [(stringUnits "name", a); (stringUnits "time", b); (stringUnits "isPresent", c)]
            = Some a) as -> by (intros; vm_compute; reflexivity).
    assert (∀ a b c, getProperty (stringUnits "time")
              [(stringUnits "name", a); (stringUnits "time", b); (stringUnits "isPresent", c)]
            = Some b) as -> by (intros; vm_compute; reflexivity).
    assert (∀ a b c, getProperty (stringUnits "isPresent")
              [(stringUnits "name", a); (stringUnits "time", b); (stringUnits "isPresent", c)]
            = Some c) as -> by (intros; vm_compute; reflexivity).
    cbn [mbind option_bind asString asBoolean]. rewrite unitsString_stringUnits.
    cbn [mbind option_bind].
    assert (asNullableString tv = Some (time r)) as ->.
    { unfold tv. destruct (time r) as [t|]; simpl; [|done].
      by rewrite unitsString_stringUnits. }
    cbn [mbind option_bind]. by destruct r.
Qed.

Lemma stringifyDay_parses (records : list AttendanceRecord) :
  ∃ v, parsesAs (length records + 6) (stringifyDay records) v ∧ asDay v = Some records.
Proof.
  destruct (parses_all 5 stringifyRecord asRecord records) as (vs & Hvs & Hg).
  { intros r _. apply stringifyRecord_parses. }
  exists (JArray vs). split; [|done].
  eapply parsesAs_mono; [by apply parsesAs_array|]. rewrite length_fmap. lia.
Qed.

Lemma stringifyLogEntry_parses (x : LogEntry) :
  ∃ v, parsesAs 7 (stringifyLogEntry x) v ∧ asLogEntry v = Some x.
Proof.
  set (act := match log_action x with masuk => "masuk" | keluar => "keluar" end%string).
  exists (JObject [ (stringUnits "id", JString (stringUnits (log_id x)));
                    (stringUnits "name", JString (stringUnits (log_name x)));
                    (stringUnits "action", JString (stringUnits act));
                    (stringUnits "time", JString (stringUnits (log_time x)));
                    (stringUnits "date", JString (stringUnits (log_date x))) ]).
  split.
  - change (stringifyLogEntry x) with
      (stringifyObject
         ((fun kt => stringifyProperty kt.1 kt.2)
          <$> [ ("id", QuoteJSONString (log_id x));
                ("name", QuoteJSONString (log_name x));
                ("action", QuoteJSONString act);
                ("time", QuoteJSONString (log_time x));
                ("date", QuoteJSONString (log_date x)) ]%string)).
    apply (parsesAs_object 1).
    repeat (constructor; [split; [reflexivity|apply parsesAs_string]|]).
    constructor.
  - unfold asLogEntry.
    assert (∀ a b c d e, getProperty (stringUnits "id")
              [(stringUnits "id", a); (stringUnits "name", b); (stringUnits "action", c);
               (stringUnits "time", d); (stringUnits "date", e)]
            = Some a) as -> by (intros; vm_compute; reflexivity).
    assert (∀ a b c d e, getProperty (stringUnits "name")
              [(stringUnits "id", a); (stringUnits "name", b); (stringUnits "action", c);
               (stringUnits "time", d); (stringUnits "date", e)]
            = Some b) as -> by (intros; vm_compute; reflexivity).
    assert (∀ a b c d e, getProperty (stringUnits "action")
              [(stringUnits "id", a); (stringUnits "name", b); (stringUnits "action", c);
               (stringUnits "time", d); (stringUnits "date", e)]
            = Some c) as -> by (intros; vm_compute; reflexivity).
    assert (∀ a b c d e, getProperty (stringUnits "time")
              [(stringUnits "id", a); (stringUnits "name", b); (stringUnits "action", c);
               (stringUnits "time", d); (stringUnits "date", e)]
            = Some d) as -> by (intros; vm_compute; reflexivity).
    assert (∀ a b c d e, getProperty (stringUnits "date")
              [(stringUnits "id", a); (stringUnits "name", b); (stringUnits "action", c);
               (stringUnits "time", d); (stringUnits "date", e)]
            = Some e) as -> by (intros; vm_compute; reflexivity).
    assert (asAction (JString (stringUnits act)) = Some (log_action x)) as Hact.
    { unfold asAction, asString. rewrite unitsString_stringUnits. unfold act.
      by destruct (log_action x). }
    cbn [mbind option_bind asString]. rewrite !unitsString_stringUnits, Hact.
    cbn [mbind option_bind]. by destruct x.
Qed.

Lemma stringifyLogs_parses (l : list LogEntry) :
  ∃ v, parsesAs (length l + 8) (stringifyLogs l) v ∧ asLogs v = Some l.
Proof.
  destruct (parses_all 7 stringifyLogEntry asLogEntry l) as (vs & Hvs & Hg).
  { intros x _. apply stringifyLogEntry_parses. }
  exists (JArray vs). split; [|done].
  eapply parsesAs_mono; [by apply parsesAs_array|]. rewrite length_fmap. lia.
Qed.

Lemma stringifyHistory_parses (entries : list (string * list AttendanceRecord)) :
  ∃ v n, parsesAs n (stringifyHistory entries) v
         ∧ asDailyData v = Some (list_to_map (reverse entries)).
Proof.
  set (n := max_list ((fun kv => length kv.2 + 6)%nat <$> entries)).
  assert (∃ ms, Forall2 (fun kt kv => kv.1 = stringUnits kt.1 ∧ parsesAs n kt.2 kv.2)
                        ((fun kv => (kv.1, stringifyDay kv.2)) <$> entries) ms
                ∧ Forall2 (fun m kv => (k ← unitsString m.1; d ← asDay m.2; Some (k, d))
                                       = Some kv) ms entries) as (ms & Hparse & Hread).
  { assert (∀ kv, kv ∈ entries → (length kv.2 + 6 ≤ n)%nat) as Hn.
    { intros kv Hin. apply max_list_elem_of_le.
      apply (list_elem_of_fmap_2 (fun kv => length kv.2 + 6)%nat _ _ Hin). }
    clearbody n. induction entries as [|[k records] entries IH].
    - exists []. split; constructor.
    - destruct IH as (ms & Hp & Hr); [intros kv Hin; apply Hn; by right|].
      destruct (stringifyDay_parses records) as (v & Hv & Hday).
      exists ((stringUnits k, v) :: ms). split.
      + rewrite fmap_cons. constructor; [|done]. split; [done|]. simpl.
        eapply parsesAs_mono; [exact Hv|]. apply (Hn (k, records)). by left.
      + constructor; [|done]. simpl. rewrite unitsString_stringUnits. simpl.
        by rewrite Hday. }
  exists (JObject ms), (n + length entries + 1)%nat. split.
  - unfold stringifyHistory.
    replace ((fun kv => stringifyProperty kv.1 (stringifyDay kv.2)) <$> entries)
      with ((fun kt : string * string => stringifyProperty kt.1 kt.2)
            <$> ((fun kv => (kv.1, stringifyDay kv.2)) <$> entries))
      by (by rewrite <- list_fmap_compose).
    rewrite <- (length_fmap (fun kv => (kv.1, stringifyDay kv.2)) entries).
    by apply parsesAs_object.
  - unfold asDailyData.
    assert (mapM (fun kv => k ← unitsString kv.1; d ← asDay kv.2; Some (k, d)) (reverse ms)
            = Some (reverse entries)) as ->; [|done].
    apply mapM_Some. by apply Forall2_reverse.
Qed.

(** X11. Saving and loading restore the state.  When the two effects
    have written [JSON.stringify(history)] and [JSON.stringify(logs)],
    whatever the order in which the store lists its dates, the
    initialisers of the next start do not throw, and what they return
    reads as the same store and the same log. *)
Theorem save_then_load (st : AppState) (entries : list (string * list AttendanceRecord))
    (storage : gmap string string) :
  entries ≡ₚ map_to_list (history st) →
  ∃ h l,
    startup (saveLogs (logs st) (saveHistory entries storage)) = Normal (h, l)
    ∧ asDailyData h = Some (history st)
    ∧ asLogs l = Some (logs st).
Proof.
  intros Hperm.
  destruct (stringifyHistory_parses entries) as (h & n & Hh & Hread).
  destruct (stringifyLogs_parses (logs st)) as (l & Hl & Hlread).
  exists h, l. split_and!.
  - assert (saveLogs (logs st) (saveHistory entries storage)
              !! "attendance_history_v2"%string = Some (stringifyHistory entries)) as Hget1.
    { unfold saveLogs, saveHistory.
      rewrite lookup_insert_ne; [apply lookup_insert_eq|discriminate]. }
    assert (saveLogs (logs st) (saveHistory entries storage)
              !! "attendance_logs_v2"%string = Some (stringifyLogs (logs st))) as Hget2.
    { unfold saveLogs. apply lookup_insert_eq. }
    unfold startup, initHistory, initLogs, getItem. rewrite Hget1, Hget2.
    assert (∀ text n v, parsesAs n text v → truthy (Some text) = true) as Htruthy.
    { intros text m v [(c & r & -> & _) _]. done. }
    rewrite (Htruthy _ _ _ Hh), (Htruthy _ _ _ Hl). simpl.
    by rewrite (parsesAs_JSON_parse _ _ _ Hh), (parsesAs_JSON_parse _ _ _ Hl).
  - rewrite Hread. f_equal.
    rewrite <- (list_to_map_to_list (history st)).
    apply list_to_map_proper.
    + rewrite reverse_Permutation, Hperm. apply NoDup_fst_map_to_list.
    + by rewrite reverse_Permutation.
  - done.
Qed.

Lemma save_then_load_witness :
  let e := {| now := mkDate 19792 29109000; randomId := fun _ => "k3j9x0q1z"%string |} in
  let st := toggleAttendance e "Nisa" (freshState "2024-03-10") in
  ∃ h l,
    startup (saveLogs (logs st) (saveHistory (map_to_list (history st)) ∅)) = Normal (h, l)
    ∧ asDailyData h = Some (history st)
    ∧ asLogs l = Some (logs st).
Proof.
  apply (save_then_load
           (toggleAttendance
              {| now := mkDate 19792 29109000; randomId := fun _ => "k3j9x0q1z"%string |}
              "Nisa" (freshState "2024-03-10"))).
  reflexivity.
Defined.

(** X12. In a roster-shaped store, toggling a roster member who is
    present on the selected date lowers that member's total by one and
    leaves every other total as it was. *)
Theorem friendTotals_toggle_absent (e : Env) (st : AppState) (i : nat) (nm : string)
    (r : AttendanceRecord) :
  rosterShaped (history st) →
  FRIENDS !! i = Some nm →
  recordsOn (history st) (selectedDate st) !! i = Some r →
  isPresent r = true →
  (fun s => if String.eqb (fs_name s) nm
            then {| fs_name := fs_name s; total := S (total s) |}
            else s)
  <$> friendTotals (history (toggleAttendance e nm st))
  = friendTotals (history st).
Proof.
  intros Hshape Hi Hr Hpres.
  destruct (rosterShaped_unique (history st) (selectedDate st) i nm Hshape Hi)
    as (r0 & Hr0 & Hnm & Huniq).
  assert (r0 = r) as -> by congruence.
  rewrite (toggleAttendance_one_match e nm st i r) by done. cbn [history].
  set (d := selectedDate st) in *. set (day := recordsOn (history st) d) in *.
  set (day' := <[i := flipped (format_HHmmss (now e)) r]> day).
  assert (history st !! d = Some day) as Hd.
  { unfold day, recordsOn in *. destruct (history st !! d) as [old|] eqn:Hd; [done|].
    simpl in Hr. pose proof defaultDay_absent as Hall. rewrite Forall_forall in Hall.
    destruct (Hall r (list_elem_of_lookup_2 _ _ _ Hr)). congruence. }
  unfold friendTotals. generalize FRIENDS at 1 2. intros names.
  induction names as [|nm' names IH]; [done|].
  cbn [map]. rewrite fmap_cons, IH. f_equal. clear IH. cbn [fs_name total].
  assert (fold_left (countDay nm') (Object_values (history st)) 0%nat
          = if String.eqb nm' nm
            then S (fold_left (countDay nm') (Object_values (<[d := day']> (history st))) 0%nat)
            else fold_left (countDay nm') (Object_values (<[d := day']> (history st))) 0%nat)
    as ->; [|by destruct (String.eqb nm' nm)].
  rewrite !total_size.
  set (P := fun kv : string * list AttendanceRecord => presentIn nm' kv.2).
  rewrite (map_filter_insert P).
  destruct (String.eqb_spec nm' nm) as [->|Hne].
  - (* the toggled member *)
    assert (presentIn nm day) as Hin.
    { apply Exists_exists. exists r. split_and!; [|done..].
      by eapply list_elem_of_lookup_2. }
    assert (¬ presentIn nm day') as Hout.
    { intros (x & Hx & Hxn & Hxp)%Exists_exists.
      apply list_elem_of_lookup in Hx as [j Hj]. unfold day' in Hj.
      destruct (decide (j = i)) as [->|Hji].
      - rewrite list_lookup_insert_eq in Hj by (by eapply lookup_lt_Some).
        injection Hj as <-. unfold flipped in Hxp. simpl in Hxp.
        rewrite Hpres in Hxp. done.
      - rewrite list_lookup_insert_ne in Hj by done. by apply Hji, (Huniq j x). }
    rewrite decide_False by done.
    rewrite map_filter_delete, map_size_delete_Some.
    + assert (0 < size (filter P (history st)))%nat; [|lia].
      destruct (decide (size (filter P (history st)) = 0%nat)) as [H0|]; [|lia].
      apply map_size_empty_iff in H0.
      assert (filter P (history st) !! d = Some day) as Hl
        by (by apply map_lookup_filter_Some).
      rewrite H0 in Hl. done.
    + exists day. by apply map_lookup_filter_Some.
  - (* another member *)
    assert (presentIn nm' day' ↔ presentIn nm' day) as Hsame.
    { apply presentIn_insert with r; [done|done|congruence]. }
    destruct (decide (P (d, day'))) as [HP|HP].
    + rewrite map_size_insert_Some; [done|].
      exists day. apply map_lookup_filter_Some. split; [done|]. by apply Hsame.
    + rewrite map_filter_delete_not; [done|].
      intros y Hy. rewrite Hd in Hy. injection Hy as <-.
      unfold P in *. simpl in *. by rewrite <- Hsame.
Qed.

Lemma friendTotals_toggle_absent_witness :
  let e := {| now := mkDate 19792 29109000; randomId := fun _ => "k3j9x0q1z"%string |} in
  let st := mkAppState
              {[ "2024-03-10"%string :=
                   <[2%nat := mkAttendanceRecord "Nisa" (Some "08:05:09"%string) true]>
                     defaultDay ]}
              [] "2024-03-10" in
  (fun s => if String.eqb (fs_name s) "Nisa"
            then {| fs_name := fs_name s; total := S (total s) |}
            else s)
  <$> friendTotals (history (toggleAttendance e "Nisa" st))
  = friendTotals (history st).
Proof.
  apply (friendTotals_toggle_absent
           {| now := mkDate 19792 29109000; randomId := fun _ => "k3j9x0q1z"%string |}
           (mkAppState
              {[ "2024-03-10"%string :=
                   <[2%nat := mkAttendanceRecord "Nisa" (Some "08:05:09"%string) true]>
                     defaultDay ]}
              [] "2024-03-10")
           2%nat "Nisa" (mkAttendanceRecord "Nisa" (Some "08:05:09"%string) true)).
  - intros d records Hd. simpl in Hd.
    apply lookup_singleton_Some in Hd as [_ <-]. reflexivity.
  - reflexivity.
  - reflexivity.
  - reflexivity.
Defined.
